(** * Dagger task engine: a shallow embedding of [dagger/tasks/task.py]

    The Python module defines the task classes of a workflow engine.  A
    workflow instance ([ITemplateDAGInstance]) owns a dict of task objects;
    the methods [start], [on_complete] and [notify] of the task classes call
    one another through the dict and mutate the task objects in place.

    Embedding.
    - A task object is a record [ITask]; the class of the object is the field
      [cls], and the fields that only some classes declare ([time_to_execute],
      [topic], [match_only_one], [parallel_child_task_list], [operator_type])
      are carried by every record.
    - A [TaskStatus] record holds the name of a [TaskStatusEnum] member in
      [code]; the engine only compares [code] with member names, so a status
      is a member of the enumeration here.
    - Objects are shared and mutated in place: a task is referred to by the
      key under which [get_task] finds it, every read goes to the current
      workflow and every write updates the entry of that key.  Python dicts
      keep insertion order, so [tasks] is an association list.
    - [int(time.time())] is the field [now] of the engine context: one
      operation is short against the one-second resolution of the clock.
    - Methods are [async]; the event loop is cooperative and one workflow is
      handled by one coroutine at a time, so a call is run to its end.
      Recursion through [start]/[on_complete]/[notify] is bounded by fuel;
      running out of fuel is the outcome [OutOfFuel].
    - Exceptions are outcomes: [Raised e] carries the state reached when the
      exception left the method, as the mutations done so far persist.
    - The store and the broker ([dagger.service.services.Dagger.app]) are not
      part of the module; their calls do not touch task objects and are left
      out, except [get_monitoring_task], which is a field of the context.
    - User code ([execute], [evaluate], [on_message]) is a field of the
      context; it may rewrite the task it runs on and the runtime parameters.

    Classes embedded: ExecutorTask (KafkaCommandTask with a [topic]),
    TriggerTask, DecisionTask, SensorTask (KafkaListenerTask with a [topic]),
    INonLeafNodeTask (sub-DAG and root instance), ParallelCompositeTask, and
    the dispatcher [KafkaAgent.process_event_helper].  IntervalTask, the
    monitoring tasks, SystemTask and the process-template classes, whose
    overrides of [start], [execute] and [on_complete] go through the store,
    are not embedded; a monitoring task that is only completed (never
    started) behaves as a TriggerTask. *)

From Stdlib Require Import ZArith List Bool Lia String.
Import ListNotations.
Local Open Scope Z_scope.

(** ** Data model *)

Definition UUID := nat.
Bind Scope nat_scope with UUID.

Inductive TaskStatusEnum :=
| NOT_STARTED | EXECUTING | COMPLETED | FAILURE | SKIPPED | SUBMITTED | STOPPED.

Inductive TaskType := ROOT | LEAF | SUB_DAG | PARALLEL_COMPOSITE.

Inductive TaskOperator := ATLEAST_ONE | JOIN_ALL.

(** The class of a task object, as far as method resolution goes. *)
Inductive TaskClass :=
| ExecutorTask | TriggerTask | DecisionTask | SensorTask
| INonLeafNodeTask | ParallelCompositeTask.

Inductive Exn := AttributeError | NotImplementedError.

Definition status_eqb (a b : TaskStatusEnum) : bool :=
  match a, b with
  | NOT_STARTED, NOT_STARTED | EXECUTING, EXECUTING | COMPLETED, COMPLETED
  | FAILURE, FAILURE | SKIPPED, SKIPPED | SUBMITTED, SUBMITTED
  | STOPPED, STOPPED => true
  | _, _ => false
  end.

Definition type_eqb (a b : TaskType) : bool :=
  match a, b with
  | ROOT, ROOT | LEAF, LEAF | SUB_DAG, SUB_DAG
  | PARALLEL_COMPOSITE, PARALLEL_COMPOSITE => true
  | _, _ => false
  end.

Definition operator_eqb (a b : TaskOperator) : bool :=
  match a, b with
  | ATLEAST_ONE, ATLEAST_ONE | JOIN_ALL, JOIN_ALL => true
  | _, _ => false
  end.

Definition TERMINAL_STATUSES : list TaskStatusEnum :=
  [COMPLETED; SKIPPED; FAILURE; STOPPED].

(** [x in [a, b, ...]] on status codes. *)
Definition status_in (s : TaskStatusEnum) (l : list TaskStatusEnum) : bool :=
  existsb (status_eqb s) l.

Record ITask := mkITask {
  cls : TaskClass;
  id : UUID;
  time_submitted : Z;
  time_completed : Z;
  task_type : TaskType;
  parent_id : option UUID;
  status : TaskStatusEnum;
  next_dags : list UUID;
  root_dag : option UUID;
  allow_skip_to : bool;
  reprocess_on_message : bool;
  time_to_execute : option Z;
  topic : option string;
  match_only_one : bool;
  parallel_child_task_list : list UUID;
  operator_type : TaskOperator
}.

Definition set_status (v : TaskStatusEnum) (t : ITask) : ITask :=
  mkITask (cls t) (id t) (time_submitted t) (time_completed t) (task_type t)
          (parent_id t) v (next_dags t) (root_dag t) (allow_skip_to t)
          (reprocess_on_message t) (time_to_execute t) (topic t)
          (match_only_one t) (parallel_child_task_list t) (operator_type t).

Definition set_time_submitted (v : Z) (t : ITask) : ITask :=
  mkITask (cls t) (id t) v (time_completed t) (task_type t)
          (parent_id t) (status t) (next_dags t) (root_dag t) (allow_skip_to t)
          (reprocess_on_message t) (time_to_execute t) (topic t)
          (match_only_one t) (parallel_child_task_list t) (operator_type t).

Definition set_time_completed (v : Z) (t : ITask) : ITask :=
  mkITask (cls t) (id t) (time_submitted t) v (task_type t)
          (parent_id t) (status t) (next_dags t) (root_dag t) (allow_skip_to t)
          (reprocess_on_message t) (time_to_execute t) (topic t)
          (match_only_one t) (parallel_child_task_list t) (operator_type t).

Definition RuntimeParameters := list (string * string).

(** [ITemplateDAGInstance]: the root task object together with the dict it
    owns.  [self] holds the [ITask] fields of the instance itself. *)
Record ITemplateDAGInstance := mkInstance {
  self : ITask;
  tasks : list (UUID * ITask);
  runtime_parameters : RuntimeParameters
}.

(** [dict.get(key, None)]. *)
Fixpoint dict_get (k : UUID) (d : list (UUID * ITask)) : option ITask :=
  match d with
  | [] => None
  | (k', t) :: d' => if Nat.eqb k k' then Some t else dict_get k d'
  end.

(** In-place update of the object stored under [k]. *)
Fixpoint dict_update (k : UUID) (f : ITask -> ITask) (d : list (UUID * ITask))
  : list (UUID * ITask) :=
  match d with
  | [] => []
  | (k', t) :: d' =>
      if Nat.eqb k k' then (k', f t) :: d' else (k', t) :: dict_update k f d'
  end.

(** [ITemplateDAGInstance.get_task]:
    [if id == self.id: return self]; [return self.tasks.get(id, None)]. *)
Definition get_task (k : UUID) (w : ITemplateDAGInstance) : option ITask :=
  if Nat.eqb k (id (self w)) then Some (self w) else dict_get k (tasks w).

(** Mutation of the object that [get_task k] returns. *)
Definition update_task (k : UUID) (f : ITask -> ITask)
           (w : ITemplateDAGInstance) : ITemplateDAGInstance :=
  if Nat.eqb k (id (self w))
  then mkInstance (f (self w)) (tasks w) (runtime_parameters w)
  else mkInstance (self w) (dict_update k f (tasks w)) (runtime_parameters w).

(** ** Engine context, trace and outcomes *)

(** What the engine is observed to do: method entries on task objects and
    calls into user code. *)
Inductive Event :=
| EStart (k : UUID)
| EOnComplete (k : UUID) (st : TaskStatusEnum) (iterate : bool)
| ENotify (k : UUID) (st : TaskStatusEnum)
| EExecute (k : UUID)
| EEvaluate (k : UUID)
| EOnMessage (k : UUID).

Record State := mkState {
  instance : ITemplateDAGInstance;
  trace : list Event
}.

Inductive Outcome := Returned | Raised (e : Exn) | OutOfFuel.

Definition Result := (Outcome * State)%type.

(** Sequencing: the continuation runs only after a normal return. *)
Definition andThen (r : Result) (k : State -> Result) : Result :=
  match r with
  | (Returned, s) => k s
  | other => other
  end.

Notation "r >> k" := (andThen r k) (at level 61, left associativity).

Definition emit (e : Event) (s : State) : State :=
  mkState (instance s) (trace s ++ [e]).

Definition modify (k : UUID) (f : ITask -> ITask) (s : State) : State :=
  mkState (update_task k f (instance s)) (trace s).

Definition lookup (k : UUID) (s : State) : option ITask :=
  get_task k (instance s).

(** The calls that go through method resolution on the receiving object. *)
Inductive Call :=
| CStart (k : UUID)
| COnComplete (k : UUID) (st : TaskStatusEnum) (iterate : bool)
| CNotify (k : UUID) (st : TaskStatusEnum).

(** The surroundings of the engine: the clock, user code, and the one store
    query whose answer the engine acts on. *)
Record Context := mkContext {
  now : Z;
  execute : ITask -> RuntimeParameters -> ITask * RuntimeParameters;
  evaluate : ITask -> RuntimeParameters -> option UUID;
  on_message : ITask -> RuntimeParameters -> ITask * RuntimeParameters * bool;
  get_monitoring_task : ITask -> option UUID
}.

Definition set_runtime_parameters (rp : RuntimeParameters) (s : State) : State :=
  mkState (mkInstance (self (instance s)) (tasks (instance s)) rp) (trace s).

(** [TaskStatus(code=EXECUTING...)] and [time_submitted = int(time.time())],
    the two assignments every [start] does on a fresh task. *)
Definition mark_executing (t0 : Z) (t : ITask) : ITask :=
  set_time_submitted t0 (set_status EXECUTING t).

(** [not self.time_to_execute]: [None] and [0] are falsy. *)
Definition unset (v : option Z) : bool :=
  match v with
  | None => true
  | Some z => Z.eqb z 0
  end.

(** ** The methods *)

Section Methods.

Variable ctx : Context.

(** Dynamic dispatch: a call on a task object, resolved by its class. *)
Variable rec : Call -> State -> Result.

(** A call into the user's [execute] on the task under [k]. *)
Definition call_execute (k : UUID) (s : State) : State :=
  match lookup k s with
  | None => s
  | Some t =>
      let '(t', rp') := execute ctx t (runtime_parameters (instance s)) in
      set_runtime_parameters rp' (modify k (fun _ => t') (emit (EExecute k) s))
  end.

(** [ITask.on_complete], the status block:
    [if self.status.code != status.code: self.status = status; ...;
     self.time_completed = time_completed]. *)
Definition mark_complete (k : UUID) (st : TaskStatusEnum) (s : State) : State :=
  match lookup k s with
  | None => s
  | Some t =>
      if status_eqb (status t) st then s
      else modify k (fun t =>
             set_time_completed
               (if 0 <? time_completed t then time_completed t else now ctx)
               (set_status st t)) s
  end.

(** How the loop over [self.next_dags] ends: at the [return await
    next_dag_instance.start(...)] of some successor, or by running off the
    list with the flag [next_task_submitted]. *)
Inductive Advance :=
| StartNext (n : UUID)
| NoneStarted (next_task_submitted : bool).

Fixpoint next_to_start (w : ITemplateDAGInstance) (l : list UUID)
         (next_task_submitted : bool) : Advance :=
  match l with
  | [] => NoneStarted next_task_submitted
  | n :: l' =>
      match get_task n w with
      | None => next_to_start w l' next_task_submitted
      | Some next_dag_instance =>
          if status_eqb (status next_dag_instance) SKIPPED
          then next_to_start w l' true
          else StartNext n
      end
  end.

(** The sweep of [on_complete] on a ROOT task over
    [workflow_instance.tasks.values()]. *)
Fixpoint root_cleanup (keys : list UUID) (s : State) : Result :=
  match keys with
  | [] => (Returned, s)
  | k :: keys' =>
      match dict_get k (tasks (instance s)) with
      | None => root_cleanup keys' s
      | Some task =>
          match get_monitoring_task ctx task with
          | None => root_cleanup keys' s
          | Some m =>
              match lookup m s with
              | None => root_cleanup keys' s
              | Some _ =>
                  rec (COnComplete m COMPLETED true) s >> root_cleanup keys'
              end
          end
      end
  end.

(** [ITask.on_complete]. *)
Definition ITask_on_complete (k : UUID) (st : TaskStatusEnum) (iterate : bool)
           (s : State) : Result :=
  let s1 := mark_complete k st s in
  if negb iterate then (Returned, s1)
  else
    match lookup k s1 with
    | None => (Returned, s1)
    | Some t =>
        match next_to_start (instance s1) (next_dags t) false with
        | StartNext n => rec (CStart n) s1
        | NoneStarted next_task_submitted =>
            match next_task_submitted, parent_id t with
            | false, Some p =>
                match lookup p s1 with
                | Some _ =>
                    rec (CNotify p st)
                        (modify p (set_time_completed (time_completed t)) s1)
                | None => (Returned, s1)
                end
            | _, _ =>
                if type_eqb (task_type t) ROOT
                then root_cleanup (map fst (tasks (instance s1))) s1
                else (Returned, s1)
            end
        end
    end.

(** [ITask.notify]. *)
Definition ITask_notify (k : UUID) (st : TaskStatusEnum) (s : State) : Result :=
  match lookup k s with
  | None => (Returned, s)
  | Some t =>
      if status_eqb (status t) st then (Returned, s)
      else rec (COnComplete k st true) s
  end.

(** [ExecutorTask.start]. *)
Definition ExecutorTask_start (k : UUID) (ignore_status : bool) (s : State)
  : Result :=
  match lookup k s with
  | None => (Returned, s)
  | Some t =>
      if status_in (status t) [COMPLETED; SKIPPED]
      then rec (COnComplete k (status t) true) s
      else
        let s1 :=
          if ignore_status || status_eqb (status t) NOT_STARTED
          then call_execute k (modify k (mark_executing (now ctx)) s)
          else s in
        match lookup k s1 with
        | None => (Returned, s1)
        | Some t1 =>
            if status_eqb (status t1) FAILURE
            then rec (COnComplete k (status t1) true) s1
            else rec (COnComplete k COMPLETED true) s1
        end
  end.

(** [TriggerTask.start]; the parameter [ignore_status] is not read, the call
    to [super().start] passes [ignore_status=True]. *)
Definition TriggerTask_start (k : UUID) (s : State) : Result :=
  match lookup k s with
  | None => (Returned, s)
  | Some t =>
      let s1 :=
        if status_eqb (status t) NOT_STARTED
        then modify k (mark_executing (now ctx)) s
        else s in
      if unset (time_to_execute t)
         || (match time_to_execute t with
             | Some tte => tte <=? now ctx
             | None => false
             end)
      then ExecutorTask_start k true s1
      else (Returned, s1)
  end.

(** [TriggerTask.on_complete]: [status] is accepted and not passed on, so
    [ITask.on_complete] runs with its default, COMPLETED. *)
Definition TriggerTask_on_complete (k : UUID) (st : TaskStatusEnum)
           (iterate : bool) (s : State) : Result :=
  ITask_on_complete k COMPLETED iterate s.

(** [workflow_instance.get_taskt]: [ITemplateDAGInstance] and its bases
    define [add_task], [get_task] and [_update_global_runtime_parameters];
    there is no attribute [get_taskt], so the access raises. *)
Definition getattr_get_taskt (w : ITemplateDAGInstance)
  : Exn + (UUID -> option ITask) :=
  inl AttributeError.

(** The loop of [DecisionTask.start] over [self.next_dags]. *)
Fixpoint skip_others (task_to_execute : option UUID) (l : list UUID)
         (s : State) : Result :=
  match l with
  | [] => (Returned, s)
  | next_task_id :: l' =>
      if match task_to_execute with
         | Some chosen => Nat.eqb next_task_id chosen
         | None => false
         end
      then skip_others task_to_execute l' s
      else
        match getattr_get_taskt (instance s) with
        | inl e => (Raised e, s)
        | inr get =>
            match get next_task_id with
            | Some _ =>
                skip_others task_to_execute l'
                            (modify next_task_id (set_status SKIPPED) s)
            | None => skip_others task_to_execute l' s
            end
        end
  end.

(** [DecisionTask.start]. *)
Definition DecisionTask_start (k : UUID) (s : State) : Result :=
  match lookup k s with
  | None => (Returned, s)
  | Some t =>
      if status_in (status t) [COMPLETED; SKIPPED]
      then rec (COnComplete k COMPLETED true) s
      else
        (if status_eqb (status t) NOT_STARTED
         then
           let s1 := emit (EEvaluate k) (modify k (mark_executing (now ctx)) s) in
           let task_to_execute :=
             evaluate ctx (mark_executing (now ctx) t)
                      (runtime_parameters (instance s)) in
           skip_others task_to_execute (next_dags t) s1
         else (Returned, s))
        >> rec (COnComplete k COMPLETED true)
  end.

(** [SensorTask.start]. *)
Definition SensorTask_start (k : UUID) (s : State) : Result :=
  match lookup k s with
  | None => (Returned, s)
  | Some t =>
      if status_in (status t) [COMPLETED; SKIPPED]
      then rec (COnComplete k (status t) true) s
      else if status_eqb (status t) NOT_STARTED
           then (Returned, modify k (mark_executing (now ctx)) s)
           else (Returned, s)
  end.

(** [INonLeafNodeTask.start]; its [execute] is the status flip of
    [INonLeafNodeTask.execute]. *)
Definition INonLeafNodeTask_start (k : UUID) (s : State) : Result :=
  match lookup k s with
  | None => (Returned, s)
  | Some t =>
      if status_in (status t) [COMPLETED; SKIPPED]
      then rec (COnComplete k (status t) true) s
      else
        let s1 :=
          if status_eqb (status t) NOT_STARTED || status_eqb (status t) SUBMITTED
          then modify k (mark_executing (now ctx)) s
          else s in
        match root_dag t with
        | None => (Returned, s1)
        | Some first =>
            match lookup first s1 with
            | Some _ => rec (CStart first) s1
            | None => (Returned, s1)
            end
        end
  end.

(** The loop of [ParallelCompositeTask.start] over the children. *)
Fixpoint start_children (l : list UUID) (s : State) : Result :=
  match l with
  | [] => (Returned, s)
  | task_id :: l' =>
      match lookup task_id s with
      | Some _ => rec (CStart task_id) s >> start_children l'
      | None => start_children l' s
      end
  end.

(** [ParallelCompositeTask.start]. *)
Definition ParallelCompositeTask_start (k : UUID) (s : State) : Result :=
  match lookup k s with
  | None => (Returned, s)
  | Some t =>
      if status_in (status t) TERMINAL_STATUSES
      then rec (COnComplete k (status t) true) s
      else
        let s1 :=
          if status_eqb (status t) NOT_STARTED || status_eqb (status t) SUBMITTED
          then modify k (mark_executing (now ctx))
                      (modify k (mark_executing (now ctx)) s)
          else s in
        start_children (parallel_child_task_list t) s1
  end.

(** The loop of [ParallelCompositeTask.notify] over the children, with its
    two flags and its two [break]s. *)
Fixpoint scan_children (op : TaskOperator) (w : ITemplateDAGInstance)
         (l : list UUID) (atleast_one all_in_terminal : bool) : bool * bool :=
  match l with
  | [] => (atleast_one, all_in_terminal)
  | task_id :: l' =>
      match get_task task_id w with
      | Some dag_instance =>
          if status_in (status dag_instance) TERMINAL_STATUSES
          then if operator_eqb op ATLEAST_ONE
               then (true, all_in_terminal)
               else scan_children op w l' true all_in_terminal
          else if operator_eqb op JOIN_ALL
               then (atleast_one, false)
               else scan_children op w l' atleast_one false
      | None => scan_children op w l' atleast_one all_in_terminal
      end
  end.

(** The condition under which [ParallelCompositeTask.notify] goes on to
    [on_complete], once the status guard has passed. *)
Definition join_satisfied (t : ITask) (w : ITemplateDAGInstance) : bool :=
  let '(atleast_one, all_in_terminal) :=
    scan_children (operator_type t) w (parallel_child_task_list t) false true in
  (operator_eqb (operator_type t) JOIN_ALL && all_in_terminal)
  || (operator_eqb (operator_type t) ATLEAST_ONE && atleast_one).

(** [ParallelCompositeTask.notify]. *)
Definition ParallelCompositeTask_notify (k : UUID) (st : TaskStatusEnum)
           (s : State) : Result :=
  match lookup k s with
  | None => (Returned, s)
  | Some t =>
      if status_eqb (status t) st then (Returned, s)
      else if join_satisfied t (instance s)
           then rec (COnComplete k st true) s
           else (Returned, s)
  end.

(** Method resolution.  Entering a method is recorded in the trace. *)
Definition step (c : Call) (s : State) : Result :=
  match c with
  | CStart k =>
      match lookup k s with
      | None => (Returned, s)
      | Some t =>
          let s' := emit (EStart k) s in
          match cls t with
          | ExecutorTask => ExecutorTask_start k false s'
          | TriggerTask => TriggerTask_start k s'
          | DecisionTask => DecisionTask_start k s'
          | SensorTask => SensorTask_start k s'
          | INonLeafNodeTask => INonLeafNodeTask_start k s'
          | ParallelCompositeTask => ParallelCompositeTask_start k s'
          end
      end
  | COnComplete k st iterate =>
      match lookup k s with
      | None => (Returned, s)
      | Some t =>
          let s' := emit (EOnComplete k st iterate) s in
          match cls t with
          | TriggerTask => TriggerTask_on_complete k st iterate s'
          | _ => ITask_on_complete k st iterate s'
          end
      end
  | CNotify k st =>
      match lookup k s with
      | None => (Returned, s)
      | Some t =>
          let s' := emit (ENotify k st) s in
          match cls t with
          | ParallelCompositeTask => ParallelCompositeTask_notify k st s'
          | _ => ITask_notify k st s'
          end
      end
  end.

End Methods.

(** A call run with [fuel] levels of nested method calls. *)
Fixpoint run (ctx : Context) (fuel : nat) (c : Call) (s : State) : Result :=
  match fuel with
  | O => (OutOfFuel, s)
  | S fuel' => step ctx (run ctx fuel') c s
  end.

Definition start (ctx : Context) (fuel : nat) (k : UUID) (s : State) : Result :=
  run ctx fuel (CStart k) s.

Definition on_complete (ctx : Context) (fuel : nat) (k : UUID)
           (st : TaskStatusEnum) (iterate : bool) (s : State) : Result :=
  run ctx fuel (COnComplete k st iterate) s.

Definition notify (ctx : Context) (fuel : nat) (k : UUID)
           (st : TaskStatusEnum) (s : State) : Result :=
  run ctx fuel (CNotify k st) s.

(** ** Event dispatch *)

(** [tasks[-1].get_id() == end_task_id], false on the empty list. *)
Definition last_is (w : ITemplateDAGInstance) (l : list UUID) (end_task_id : UUID)
  : bool :=
  match rev l with
  | [] => false
  | k :: _ =>
      match get_task k w with
      | Some t => Nat.eqb (id t) end_task_id
      | None => false
      end
  end.

(** [ITask.get_remaining_tasks].  The list [tasks] is one shared object that
    every recursive call appends to; here it is passed in and handed back.
    [None] when the recursion is deeper than [fuel]. *)
Fixpoint get_remaining_tasks (fuel : nat) (w : ITemplateDAGInstance)
         (next_dag_id : UUID) (tasks : list UUID) (end_task_id : UUID)
  : option (list UUID) :=
  match fuel with
  | O => None
  | S fuel' =>
      match get_task next_dag_id w with
      | None => Some tasks
      | Some task_instance =>
          match
            match root_dag task_instance with
            | Some r => get_remaining_tasks fuel' w r tasks end_task_id
            | None => Some tasks
            end
          with
          | None => None
          | Some tasks1 =>
              if Nat.eqb (id task_instance) end_task_id
              then Some (tasks1 ++ [next_dag_id])
              else if last_is w tasks1 end_task_id then Some tasks1
              else
                fold_left
                  (fun acc n =>
                     match acc with
                     | None => None
                     | Some l => get_remaining_tasks fuel' w n l end_task_id
                     end)
                  (next_dags task_instance)
                  (Some (tasks1 ++ [next_dag_id]))
          end
      end
  end.

(** How one turn of the loop over the yielded pairs ends. *)
Inductive Control := Continue | Break | Exhausted.

Record Turn := mkTurn {
  turn_state : State;
  processed_task : bool;
  control : Control
}.

(** The [except Exception] around the body of the loop: an exception is
    logged and the loop goes on with the next pair. *)
Definition caught (r : Result) (processed : bool)
           (k : State -> Turn) : Turn :=
  match r with
  | (Returned, s) => k s
  | (Raised _, s) => mkTurn s processed Continue
  | (OutOfFuel, s) => mkTurn s processed Exhausted
  end.

Section Dispatch.

Variable ctx : Context.
Variable fuel : nat.

(** The topic the agent listens on, and [match_only_one] of its listener
    task ([getattr(self.__task, "match_only_one", False)]). *)
Variable topic_name : string.
Variable listener_match_only_one : bool.

(** The loop [for task in previous_tasks[:-1]]. *)
Fixpoint skip_previous (l : list UUID) (s : State) : Result :=
  match l with
  | [] => (Returned, s)
  | task :: l' =>
      match lookup task s with
      | None => skip_previous l' s
      | Some t =>
          if status_in (status t) [NOT_STARTED; EXECUTING]
          then on_complete ctx fuel task SKIPPED false s >> skip_previous l'
          else skip_previous l' s
      end
  end.

(** [task_instance.on_message(workflow_instance.runtime_parameters, event)]:
    user code on a sensor, [NotImplementedError] on an executor. *)
Definition call_on_message (k : UUID) (s : State) : Result * bool :=
  match lookup k s with
  | None => ((Returned, s), false)
  | Some t =>
      match cls t with
      | SensorTask =>
          let '(t', rp', completed) :=
            on_message ctx t (runtime_parameters (instance s)) in
          ((Returned,
            set_runtime_parameters rp'
              (modify k (fun _ => t') (emit (EOnMessage k) s))),
           completed)
      | _ => ((Raised NotImplementedError, s), false)
      end
  end.

(** The part of the loop body from the test on COMPLETED to its end. *)
Definition deliver (k : UUID) (s : State) (processed : bool) : Turn :=
  match lookup k s with
  | None => mkTurn s processed Continue
  | Some t =>
      if status_eqb (status t) COMPLETED
      then
        if reprocess_on_message t
        then caught (fst (call_on_message k s)) processed
                    (fun s' => mkTurn s' true Continue)
        else caught (start ctx fuel k s) processed
                    (fun s' => mkTurn s' true Continue)
      else if negb (status_eqb (status t) EXECUTING)
              && (negb (status_eqb (status t) SKIPPED) || negb (allow_skip_to t))
      then mkTurn s processed Continue
      else
        let '(r, completed) := call_on_message k s in
        caught r processed (fun s1 =>
          caught (if completed then on_complete ctx fuel k COMPLETED true s1
                  else (Returned, s1))
                 processed
                 (fun s2 =>
                    mkTurn s2 true
                           (if listener_match_only_one then Break else Continue)))
  end.

(** The body of the loop for one yielded pair, inside its workflow. *)
Definition process_pair (k : UUID) (s : State) (processed : bool) : Turn :=
  match lookup k s with
  | None => mkTurn s processed Continue
  | Some t =>
      match topic t with
      | None => mkTurn s processed Continue
      | Some tp =>
          if String.eqb tp EmptyString || negb (String.eqb tp topic_name)
          then mkTurn s processed Continue
          else if status_eqb (status t) NOT_STARTED && allow_skip_to t
          then
            match
              match root_dag (self (instance s)) with
              | None => Some []
              | Some r => get_remaining_tasks fuel (instance s) r [] (id t)
              end
            with
            | None => mkTurn s processed Exhausted
            | Some previous_tasks =>
                let s1 := modify k (mark_executing (now ctx)) s in
                caught (skip_previous (removelast previous_tasks) s1) true
                       (fun s2 => deliver k s2 true)
            end
          else deliver k s processed
      end
  end.

(** The workflow instances the store holds, by position; a yielded pair
    names a position and a task key.  A pair whose workflow is absent has
    no task either. *)
Definition Instances := list State.

Fixpoint replace_nth (i : nat) (s : State) (l : Instances) : Instances :=
  match l, i with
  | [], _ => []
  | _ :: l', O => s :: l'
  | x :: l', S i' => x :: replace_nth i' s l'
  end.

(** The loop [async for workflow_instance, task_instance in ...] for one
    mapping.  The result carries [Exhausted] when fuel ran out. *)
Fixpoint process_pairs (pairs : list (nat * UUID)) (insts : Instances)
         (processed : bool) : Instances * bool * Control :=
  match pairs with
  | [] => (insts, processed, Continue)
  | (i, k) :: pairs' =>
      match nth_error insts i with
      | None => process_pairs pairs' insts processed
      | Some s =>
          let r := process_pair k s processed in
          let insts' := replace_nth i (turn_state r) insts in
          match control r with
          | Continue => process_pairs pairs' insts' (processed_task r)
          | Break => (insts', processed_task r, Break)
          | Exhausted => (insts', processed_task r, Exhausted)
          end
      end
  end.

(** A mapping returned by [get_correlatable_keys_from_payload]: one that is
    empty or shorter than two is skipped, another one is looked up in the
    store, which yields pairs. *)
Inductive Mapping :=
| Malformed
| Yields (pairs : list (nat * UUID)).

(** [KafkaAgent.process_event_helper]: the loop over the mappings.  The
    [break] of the inner loop leaves the inner loop only. *)
Fixpoint process_event_helper (mappings : list Mapping) (insts : Instances)
         (processed : bool) : Instances * bool * Outcome :=
  match mappings with
  | [] => (insts, processed, Returned)
  | Malformed :: mappings' => process_event_helper mappings' insts processed
  | Yields pairs :: mappings' =>
      match process_pairs pairs insts processed with
      | (insts', processed', Exhausted) => (insts', processed', OutOfFuel)
      | (insts', processed', _) =>
          process_event_helper mappings' insts' processed'
      end
  end.

End Dispatch.

(** ** Workflows used as concrete inputs *)

Module Examples.

Local Open Scope nat_scope.

Definition leaf (c : TaskClass) (i : UUID) (p : option UUID)
           (st : TaskStatusEnum) (nx : list UUID) : ITask :=
  mkITask c i 0 0 LEAF p st nx None false false None None false [] JOIN_ALL.

Definition root_instance (first : option UUID) : ITask :=
  mkITask INonLeafNodeTask 0 0 0 ROOT None NOT_STARTED [] first
          false false None None false [] JOIN_ALL.

Definition sensor (i : UUID) (p : option UUID) (st : TaskStatusEnum)
           (nx : list UUID) (skip_to : bool) (tp : string) : ITask :=
  mkITask SensorTask i 0 0 LEAF p st nx None skip_to false None (Some tp)
          false [] JOIN_ALL.

Definition trigger (i : UUID) (p : option UUID) (st : TaskStatusEnum)
           (tte : option Z) : ITask :=
  mkITask TriggerTask i 0 0 LEAF p st [] None false false tte None
          false [] JOIN_ALL.

Definition parallel (i : UUID) (p : option UUID) (st : TaskStatusEnum)
           (nx children : list UUID) (op : TaskOperator) : ITask :=
  mkITask ParallelCompositeTask i 0 0 PARALLEL_COMPOSITE p st nx None
          false false None None false children op.

Definition fresh (w : ITemplateDAGInstance) : State := mkState w [].

(** User code that leaves everything as it is; [evaluate] answers [choice],
    [on_message] answers [done]. *)
Definition quiet (choice : option UUID) (done : bool) : Context :=
  mkContext 100 (fun t rp => (t, rp)) (fun _ _ => choice)
            (fun t rp => (t, rp, done)) (fun _ => None).

(** User code whose [execute] sets FAILURE. *)
Definition failing : Context :=
  mkContext 100 (fun t rp => (set_status FAILURE t, rp)) (fun _ _ => None)
            (fun t rp => (t, rp, true)) (fun _ => None).

(** A sub-DAG 1 under the root with one leaf 2, whose only successor 3 has
    been skipped. *)
Definition skipped_successor : ITemplateDAGInstance :=
  mkInstance (root_instance (Some 1))
    [(1, mkITask INonLeafNodeTask 1 0 0 SUB_DAG (Some 0) EXECUTING [] (Some 2)
                 false false None None false [] JOIN_ALL);
     (2, leaf ExecutorTask 2 (Some 1) EXECUTING [3]);
     (3, leaf ExecutorTask 3 (Some 1) SKIPPED [])] [].

(** The same sub-DAG, the leaf 2 naming a successor 7 that is not in the
    workflow. *)
Definition missing_successor : ITemplateDAGInstance :=
  mkInstance (root_instance (Some 1))
    [(1, mkITask INonLeafNodeTask 1 0 0 SUB_DAG (Some 0) EXECUTING [] (Some 2)
                 false false None None false [] JOIN_ALL);
     (2, leaf ExecutorTask 2 (Some 1) EXECUTING [7])] [].

(** Leaf 2 with successors 3 (skipped), 4 and 5. *)
Definition two_live_successors : ITemplateDAGInstance :=
  mkInstance (root_instance (Some 2))
    [(2, leaf ExecutorTask 2 (Some 0) EXECUTING [3; 4; 5]);
     (3, leaf ExecutorTask 3 (Some 0) SKIPPED []);
     (4, leaf ExecutorTask 4 (Some 0) NOT_STARTED []);
     (5, leaf ExecutorTask 5 (Some 0) NOT_STARTED [])] [].

(** Root with child D = 1, a decision task with [next_dags = [X; Y]],
    X = 2 and Y = 3. *)
Definition decision : ITemplateDAGInstance :=
  mkInstance (root_instance (Some 1))
    [(1, leaf DecisionTask 1 (Some 0) NOT_STARTED [2; 3]);
     (2, leaf ExecutorTask 2 (Some 0) NOT_STARTED []);
     (3, leaf ExecutorTask 3 (Some 0) NOT_STARTED [])] [].

(** Root with one leaf 1 of the given class. *)
Definition single (c : TaskClass) : ITemplateDAGInstance :=
  mkInstance (root_instance (Some 1))
    [(1, leaf c 1 (Some 0) NOT_STARTED [])] [].

(** Root with one trigger task 1 due at [tte]. *)
Definition timed (st : TaskStatusEnum) (tte : option Z)
  : ITemplateDAGInstance :=
  mkInstance (root_instance (Some 1)) [(1, trigger 1 (Some 0) st tte)] [].

(** Root with a composite 1 over the children 2 and 3, followed by 4. *)
Definition composite (st c2 c3 : TaskStatusEnum) (op : TaskOperator)
  : ITemplateDAGInstance :=
  mkInstance (root_instance (Some 1))
    [(1, parallel 1 (Some 0) st [4] [2; 3] op);
     (2, leaf ExecutorTask 2 (Some 1) c2 []);
     (3, leaf ExecutorTask 3 (Some 1) c3 []);
     (4, leaf ExecutorTask 4 (Some 0) NOT_STARTED [])] [].

(** A composite 1 over the child 2 whose successor 4 names the composite
    itself as its parent. *)
Definition successor_under_composite : ITemplateDAGInstance :=
  mkInstance (root_instance (Some 1))
    [(1, parallel 1 (Some 0) EXECUTING [4] [2] JOIN_ALL);
     (2, leaf ExecutorTask 2 (Some 1) COMPLETED []);
     (4, leaf ExecutorTask 4 (Some 1) NOT_STARTED [])] [].

(** Root with two sensors 1 and 2 listening on the topic ["orders"]. *)
Definition two_sensors (st1 st2 : TaskStatusEnum) (skip_to : bool)
  : ITemplateDAGInstance :=
  mkInstance (root_instance (Some 1))
    [(1, sensor 1 (Some 0) st1 [] skip_to "orders");
     (2, sensor 2 (Some 0) st2 [] skip_to "orders")] [].

End Examples.

(** ** The properties, in the words of the specification *)

Definition terminal (st : TaskStatusEnum) : Prop := In st TERMINAL_STATUSES.

(** The join condition in the words of the specification, over the children
    that resolve in the workflow: all of them terminal under JOIN_ALL, at
    least one of them terminal under ATLEAST_ONE. *)
Definition join_holds (t : ITask) (w : ITemplateDAGInstance) : Prop :=
  match operator_type t with
  | JOIN_ALL =>
      forall c d, In c (parallel_child_task_list t) ->
                  get_task c w = Some d -> terminal (status d)
  | ATLEAST_ONE =>
      exists c d, In c (parallel_child_task_list t)
                  /\ get_task c w = Some d /\ terminal (status d)
  end.

(** Every task that resolves in the workflow and is terminal has a positive
    [time_completed]. *)
Definition stamped (s : State) : Prop :=
  forall k t, lookup k s = Some t -> terminal (status t) -> 0 < time_completed t.

(** The calls the engine makes: [on_complete] and [notify] are only ever
    passed a terminal status. *)
Definition terminal_call (c : Call) : Prop :=
  match c with
  | CStart _ => True
  | COnComplete _ st _ => terminal st
  | CNotify _ st => terminal st
  end.

(** A task that is not terminal or has a positive [time_completed]. *)
Definition stamped_task (t : ITask) : Prop :=
  terminal (status t) -> 0 < time_completed t.

(** User code that keeps the [id] of its task and does not leave a task
    terminal without a positive [time_completed]. *)
Definition execute_stamps (ctx : Context) : Prop :=
  forall t rp,
    id (fst (execute ctx t rp)) = id t
    /\ (stamped_task t -> stamped_task (fst (execute ctx t rp))).

Definition on_message_stamps (ctx : Context) : Prop :=
  forall t rp,
    id (fst (fst (on_message ctx t rp))) = id t
    /\ (stamped_task t -> stamped_task (fst (fst (on_message ctx t rp)))).

(** The fields of a task that say where it sits in the graph. *)
Definition shape (t : ITask)
  : TaskClass * UUID * option UUID * list UUID * option UUID * list UUID :=
  (cls t, id t, parent_id t, next_dags t, root_dag t, parallel_child_task_list t).

Definition is_completion (k : UUID) (e : Event) : bool :=
  match e with
  | EOnComplete k' _ _ => Nat.eqb k' k
  | _ => false
  end.

(** How often [on_complete] was entered on the task [k]. *)
Definition completions (k : UUID) (tr : list Event) : nat :=
  List.length (filter (is_completion k) tr).

Definition same_shapes (s s' : State) : Prop :=
  forall k, option_map shape (lookup k s') = option_map shape (lookup k s).

(** The calls in reach of a cascade: [start] on the tasks of [started],
    [on_complete] and [notify] on the tasks of [reached]. *)
Definition in_reach (started reached : UUID -> Prop) (c : Call) : Prop :=
  match c with
  | CStart k => started k
  | COnComplete k _ _ => reached k
  | CNotify k _ => reached k
  end.

(** The cascade that the completion of [P] sets off does not come back to
    [P]: [started] holds the tasks it may start and [reached] the tasks it
    may complete or notify, [P] is not in [reached], and both sets follow
    the graph.  In a workflow that is a DAG under a tree of parents,
    [started] is what lies after [P] and [reached] adds the ancestors of
    those tasks and of [P]. *)
Record cascade_avoids (ctx : Context) (s : State) (P : UUID)
       (started reached : UUID -> Prop) : Prop := {
  avoid_subset : forall k, started k -> reached k;
  avoid_self : ~ reached P;
  avoid_first_next :
    forall t n, lookup P s = Some t -> In n (next_dags t) -> started n;
  avoid_first_parent :
    forall t p, lookup P s = Some t -> parent_id t = Some p -> reached p;
  avoid_next :
    forall k t n, reached k -> lookup k s = Some t ->
                  In n (next_dags t) -> started n;
  avoid_parent :
    forall k t p, reached k -> lookup k s = Some t ->
                  parent_id t = Some p -> reached p;
  avoid_root_dag :
    forall k t r, started k -> lookup k s = Some t ->
                  root_dag t = Some r -> started r;
  avoid_children :
    forall k t c, started k -> lookup k s = Some t ->
                  In c (parallel_child_task_list t) -> started c;
  avoid_monitor :
    forall task m, get_monitoring_task ctx task = Some m -> reached m;
  avoid_execute :
    forall t rp, shape (fst (execute ctx t rp)) = shape t
}.

(** What a cascade that avoids [P] leaves alone, against a reference state:
    the object of [P], the shape of every task, and the number of
    completions of [P]. *)
Definition frame (P : UUID) (ref s : State) : Prop :=
  lookup P s = lookup P ref
  /\ same_shapes ref s
  /\ completions P (trace s) = completions P (trace ref).

(** [notify(status)] called one time after another on the composite [P],
    each call with its own fuel. *)
Fixpoint notify_repeatedly (ctx : Context) (fuels : list nat) (P : UUID)
         (st : TaskStatusEnum) (s : State) : State :=
  match fuels with
  | [] => s
  | fuel :: fuels' =>
      notify_repeatedly ctx fuels' P st (snd (notify ctx fuel P st s))
  end.

(** ** Further methods of the module *)

(** [self.tasks[task.id] = task]: an existing key keeps its place in the
    dict and gets the new object, a new key goes to the end. *)
Fixpoint dict_set (k : UUID) (t : ITask) (d : list (UUID * ITask))
  : list (UUID * ITask) :=
  match d with
  | [] => [(k, t)]
  | (k', t') :: d' =>
      if Nat.eqb k k' then (k', t) :: d' else (k', t') :: dict_set k t d'
  end.

(** [ITemplateDAGInstance.add_task]. *)
Definition add_task (task : ITask) (w : ITemplateDAGInstance)
  : ITemplateDAGInstance :=
  mkInstance (self w) (dict_set (id task) task (tasks w))
             (runtime_parameters w).

(** [DecisionTask.evaluate] of the base class, [num] being the value of
    [random.randint(0, 1)]: [None] on 0, else the first id of
    [self.next_dags] ([None] when there is none). *)
Definition DecisionTask_evaluate (num : Z) (t : ITask) : option UUID :=
  if Z.eqb num 0 then None
  else match next_dags t with
       | task_id :: _ => Some task_id
       | [] => None
       end.

Definition set_time_to_execute (v : option Z) (t : ITask) : ITask :=
  mkITask (cls t) (id t) (time_submitted t) (time_completed t) (task_type t)
          (parent_id t) (status t) (next_dags t) (root_dag t) (allow_skip_to t)
          (reprocess_on_message t) v (topic t)
          (match_only_one t) (parallel_child_task_list t) (operator_type t).

(** The fields that [IntervalTask] adds to a trigger task.  The module reads
    them and never assigns them. *)
Record IntervalFields := mkIntervalFields {
  time_to_force_complete : option Z;
  interval_execute_period : option Z
}.

(** [x and now < x] on an optional time: false on [None] and on 0. *)
Definition set_and_after_now (v : option Z) (t0 : Z) : bool :=
  match v with
  | Some z => negb (Z.eqb z 0) && (t0 <? z)
  | None => false
  end.

(** [not x or now >= x]. *)
Definition unset_or_due (v : option Z) (t0 : Z) : bool :=
  unset v || match v with
             | Some z => z <=? t0
             | None => false
             end.

(** [x and now >= x]. *)
Definition set_and_due (v : option Z) (t0 : Z) : bool :=
  match v with
  | Some z => negb (Z.eqb z 0) && (z <=? t0)
  | None => false
  end.

Section Interval.

Variable ctx : Context.
Variable rec : Call -> State -> Result.

(** The user's [interval_execute]; it may rewrite its task and the runtime
    parameters, and answers whether the task is finished.  The base class
    answers [True]. *)
Variable interval_execute :
  ITask -> RuntimeParameters -> ITask * RuntimeParameters * bool.

Variable fields : IntervalFields.

Definition call_interval_execute (k : UUID) (s : State) : State * bool :=
  match lookup k s with
  | None => (s, false)
  | Some t =>
      let '(t', rp', is_finished) :=
        interval_execute t (runtime_parameters (instance s)) in
      (set_runtime_parameters rp' (modify k (fun _ => t') s), is_finished)
  end.

(** [IntervalTask.start], entered on the task under [k].  The object is
    stored with the class [TriggerTask]: [on_complete], [notify] and the
    resolution of [execute] are inherited from it, and [super().start] is
    [TriggerTask.start].  The boolean is the value returned. *)
Definition IntervalTask_start (k : UUID) (s : State) : Result * bool :=
  match lookup k s with
  | None => ((Returned, s), false)
  | Some t =>
      let s1 :=
        if status_eqb (status t) NOT_STARTED
        then modify k (mark_executing (now ctx)) s
        else s in
      if set_and_after_now (time_to_execute t) (now ctx)
      then ((Returned, s1), false)
      else
        let '(s3, is_finished) :=
          if unset_or_due (time_to_execute t) (now ctx)
          then
            let '(s2, is_finished) := call_interval_execute k s1 in
            (if negb is_finished
                && negb (unset (interval_execute_period fields))
             then modify k
                    (set_time_to_execute
                       (option_map (Z.add (now ctx))
                                   (interval_execute_period fields)))
                    s2
             else s2,
             is_finished)
          else (s1, false) in
        if is_finished
           || set_and_due (time_to_force_complete fields) (now ctx)
        then (TriggerTask_start ctx rec k s3, true)
        else ((Returned, s3), false)
  end.

End Interval.

(** [DefaultMonitoringTask.execute] with
    [SkipOnMaxDurationTask.process_monitored_task], run by a monitor whose
    [monitored_task_id] is given.  The log line of [process_monitored_task]
    reads [monitored_task.process_name], an attribute that only the
    composite and the process classes declare; [defines_process_name] says
    whether the class of a task has it. *)
Section Monitoring.

Variable ctx : Context.
Variable fuel : nat.
Variable defines_process_name : ITask -> bool.

Definition SkipOnMaxDurationTask_process_monitored_task
           (monitored : UUID) (s : State) : Result :=
  match lookup monitored s with
  | None => (Returned, s)
  | Some monitored_task =>
      if status_eqb (status monitored_task) EXECUTING
      then
        if defines_process_name monitored_task
        then
          match get_remaining_tasks fuel (instance s)
                                    (id (self (instance s))) []
                                    (id monitored_task) with
          | None => (OutOfFuel, s)
          | Some all_prev_dags =>
              skip_previous ctx fuel (removelast all_prev_dags) s
              >> on_complete ctx fuel monitored SKIPPED true
          end
        else (Raised AttributeError, s)
      else (Returned, s)
  end.

Definition DefaultMonitoringTask_execute (monitored_task_id : option UUID)
           (s : State) : Result :=
  match monitored_task_id with
  | None => (Returned, s)
  | Some monitored =>
      match lookup monitored s with
      | None => (Returned, s)
      | Some monitored_task =>
          if negb (status_in (status monitored_task)
                             [COMPLETED; SKIPPED; FAILURE])
          then SkipOnMaxDurationTask_process_monitored_task monitored s
          else (Returned, s)
      end
  end.

End Monitoring.

(** ** Further properties, in words *)

(** Some key of [l] resolves to a task whose [id] is [e]. *)
Definition visits (w : ITemplateDAGInstance) (l : list UUID) (e : UUID) : Prop :=
  exists k t, In k l /\ get_task k w = Some t /\ id t = e.

(** The keys [pre] followed by [e] form a chain of leaves stored under their
    own ids: each names the next as its only successor and none has a
    [root_dag]; [e] itself may have any successors. *)
Fixpoint linked (w : ITemplateDAGInstance) (pre : list UUID) (e : UUID) : Prop :=
  match pre with
  | [] => exists t, get_task e w = Some t /\ id t = e /\ root_dag t = None
  | k :: pre' =>
      (exists t, get_task k w = Some t /\ id t = k /\ k <> e
                 /\ root_dag t = None /\ next_dags t = [hd e pre'])
      /\ linked w pre' e
  end.

(** ** More workflows used as concrete inputs *)

Module Scenarios.

Local Open Scope nat_scope.

(** Root 0 over the chain 1 -> 2 -> 3 -> 4, where 3 is a sensor on
    ["orders"] with [allow_skip_to] and the others are executors. *)
Definition chain : ITemplateDAGInstance :=
  mkInstance (Examples.root_instance (Some 1))
    [(1, Examples.leaf ExecutorTask 1 (Some 0) NOT_STARTED [2]);
     (2, Examples.leaf ExecutorTask 2 (Some 0) NOT_STARTED [3]);
     (3, Examples.sensor 3 (Some 0) NOT_STARTED [4] true "orders");
     (4, Examples.leaf ExecutorTask 4 (Some 0) NOT_STARTED [])] [].

(** Root 0 over the chain of executors 1 -> 2 -> 3. *)
Definition executors : ITemplateDAGInstance :=
  mkInstance (Examples.root_instance (Some 1))
    [(1, Examples.leaf ExecutorTask 1 (Some 0) NOT_STARTED [2]);
     (2, Examples.leaf ExecutorTask 2 (Some 0) NOT_STARTED [3]);
     (3, Examples.leaf ExecutorTask 3 (Some 0) NOT_STARTED [])] [].

(** Root 0 over a composite 1 with the children 2 and 3, two sensors on
    ["orders"], and a child id 8 that is not in the workflow. *)
Definition fan : ITemplateDAGInstance :=
  mkInstance (Examples.root_instance (Some 1))
    [(1, Examples.parallel 1 (Some 0) NOT_STARTED [4] [2; 3; 8] ATLEAST_ONE);
     (2, Examples.sensor 2 (Some 1) NOT_STARTED [] false "orders");
     (3, Examples.sensor 3 (Some 1) NOT_STARTED [] false "orders");
     (4, Examples.leaf ExecutorTask 4 (Some 0) NOT_STARTED [])] [].

End Scenarios.

(** A task for which the dispatcher lets an event on [topic_name] pass
    without a write: it has no topic or another one, or it is a sensor
    waiting to be started without [allow_skip_to], or it is SUBMITTED,
    FAILURE or STOPPED, or SKIPPED without [allow_skip_to]. *)
Definition ignored (topic_name : string) (t : ITask) : Prop :=
  topic t = None \/ topic t = Some EmptyString
  \/ (exists tp, topic t = Some tp /\ tp <> topic_name)
  \/ (status t = NOT_STARTED /\ allow_skip_to t = false)
  \/ status t = SUBMITTED \/ status t = FAILURE \/ status t = STOPPED
  \/ (status t = SKIPPED /\ allow_skip_to t = false).

(** What [on_complete(SKIPPED, iterate=False)] leaves of a pending task: the
    status SKIPPED and a completion time; on a trigger task, whose
    [on_complete] passes COMPLETED on, the status COMPLETED. *)
Definition skipped_over (ctx : Context) (t : ITask) : ITask :=
  set_time_completed
    (if 0 <? time_completed t then time_completed t else now ctx)
    (set_status match cls t with
                | TriggerTask => COMPLETED
                | _ => SKIPPED
                end t).

Definition pending (t : ITask) : bool :=
  status_in (status t) [NOT_STARTED; EXECUTING].

(** The keys [ks] are executors under the parent [r], none started yet,
    each naming the next as its only successor and the last naming none. *)
Fixpoint ready_chain (r : UUID) (s : State) (ks : list UUID) : Prop :=
  match ks with
  | [] => True
  | k :: rest =>
      k <> r
      /\ (exists t, lookup k s = Some t /\ cls t = ExecutorTask
                    /\ status t = NOT_STARTED /\ parent_id t = Some r
                    /\ next_dags t = firstn 1 rest)
      /\ ready_chain r s rest
  end.

(** User code that never turns an EXECUTING task into FAILURE. *)
Definition never_fails (ctx : Context) : Prop :=
  forall t0 rp, status t0 = EXECUTING ->
                status (fst (execute ctx t0 rp)) <> FAILURE.

(** A task ended by the engine: COMPLETED, or FAILURE when user code set
    it; COMPLETED when user code never sets FAILURE. *)
Definition ended (ctx : Context) (t : ITask) : Prop :=
  (status t = COMPLETED \/ status t = FAILURE)
  /\ (never_fails ctx -> status t = COMPLETED).

(** What a visit of [get_remaining_tasks] may do to the shared list. *)
Definition grows (w : ITemplateDAGInstance) (e : UUID) (acc r : list UUID)
  : Prop :=
  exists ext,
    r = acc ++ ext
    /\ Forall (fun k => get_task k w <> None) ext
    /\ (last_is w acc e = true \/ visits w ext e -> last_is w r e = true).

(** The root as the last completion finds it. *)
Definition root_waiting (r : UUID) (s : State) : Prop :=
  exists rt, lookup r s = Some rt /\ cls rt = INonLeafNodeTask
             /\ task_type rt = ROOT /\ status rt = EXECUTING
             /\ next_dags rt = [] /\ parent_id rt = None.


(** ** Basic facts about the store *)

Lemma status_eqb_eq (a b : TaskStatusEnum) : status_eqb a b = true <-> a = b.
Proof. destruct a, b; simpl; split; intro H; try reflexivity; discriminate H. Qed.

Lemma status_eqb_refl (a : TaskStatusEnum) : status_eqb a a = true.
Proof. destruct a; reflexivity. Qed.

Lemma status_eqb_neq (a b : TaskStatusEnum) : status_eqb a b = false <-> a <> b.
Proof.
  split.
  - intros H E. apply status_eqb_eq in E. congruence.
  - intro H. destruct (status_eqb a b) eqn:E; [|reflexivity].
    apply status_eqb_eq in E. contradiction.
Qed.

Lemma dict_get_update (k n : UUID) (f : ITask -> ITask) (d : list (UUID * ITask)) :
  dict_get n (dict_update k f d)
  = if Nat.eqb n k then option_map f (dict_get k d) else dict_get n d.
Proof.
  induction d as [|[k' t] d IH]; simpl.
  - destruct (Nat.eqb n k); reflexivity.
  - destruct (Nat.eqb k k') eqn:Ek; simpl.
    + apply Nat.eqb_eq in Ek. subst k'.
      destruct (Nat.eqb n k); reflexivity.
    + destruct (Nat.eqb n k') eqn:En.
      * apply Nat.eqb_eq in En. subst k'.
        rewrite Nat.eqb_sym in Ek. rewrite Ek. reflexivity.
      * exact IH.
Qed.

Lemma dict_update_keys (k : UUID) (f : ITask -> ITask) (d : list (UUID * ITask)) :
  map fst (dict_update k f d) = map fst d.
Proof.
  induction d as [|[k' t] d IH]; simpl; [reflexivity|].
  destruct (Nat.eqb k k'); simpl; congruence.
Qed.

(** Reading after a write that leaves the [id] of the written object alone:
    the written key sees the new object, every other key sees what it saw
    before. *)
Lemma get_task_update (k n : UUID) (f : ITask -> ITask) (w : ITemplateDAGInstance) :
  (forall t, get_task k w = Some t -> id (f t) = id t) ->
  get_task n (update_task k f w)
  = if Nat.eqb n k then option_map f (get_task k w) else get_task n w.
Proof.
  intro Hid. unfold get_task, update_task in *.
  destruct (Nat.eqb k (id (self w))) eqn:Ek; simpl.
  - rewrite (Hid (self w) eq_refl). apply Nat.eqb_eq in Ek. subst k.
    destruct (Nat.eqb n (id (self w))); reflexivity.
  - rewrite dict_get_update.
    destruct (Nat.eqb n (id (self w))) eqn:En.
    + apply Nat.eqb_eq in En. subst n. rewrite Nat.eqb_sym, Ek. reflexivity.
    + reflexivity.
Qed.

Lemma lookup_emit (n : UUID) (e : Event) (s : State) :
  lookup n (emit e s) = lookup n s.
Proof. reflexivity. Qed.

Lemma lookup_modify (k n : UUID) (f : ITask -> ITask) (s : State) :
  (forall t, lookup k s = Some t -> id (f t) = id t) ->
  lookup n (modify k f s)
  = if Nat.eqb n k then option_map f (lookup k s) else lookup n s.
Proof. intro Hid. unfold lookup, modify; simpl. apply get_task_update, Hid. Qed.

Lemma id_mark_executing (z : Z) (t : ITask) : id (mark_executing z t) = id t.
Proof. reflexivity. Qed.

Lemma id_set_time_completed (z : Z) (t : ITask) : id (set_time_completed z t) = id t.
Proof. reflexivity. Qed.

(** The status block of [on_complete] never makes a key appear or vanish. *)
Lemma lookup_mark_complete (ctx : Context) (k n : UUID) (st : TaskStatusEnum)
      (s : State) :
  lookup n (mark_complete ctx k st s)
  = if Nat.eqb n k
    then option_map
           (fun t => if status_eqb (status t) st then t
                     else set_time_completed
                            (if 0 <? time_completed t then time_completed t
                             else now ctx) (set_status st t))
           (lookup k s)
    else lookup n s.
Proof.
  unfold mark_complete.
  destruct (lookup k s) as [t|] eqn:Ek.
  - destruct (status_eqb (status t) st) eqn:Es.
    + destruct (Nat.eqb n k) eqn:En; [|reflexivity].
      apply Nat.eqb_eq in En. subst n. rewrite Ek. simpl. rewrite Es. reflexivity.
    + rewrite lookup_modify by reflexivity. rewrite Ek. simpl. rewrite Es.
      reflexivity.
  - destruct (Nat.eqb n k) eqn:En; [|reflexivity].
    apply Nat.eqb_eq in En. subst n. rewrite Ek. reflexivity.
Qed.

(** ** The loop of [on_complete] over the successors *)

Lemma next_to_start_all_missing (w : ITemplateDAGInstance) (l : list UUID)
      (b : bool) :
  (forall n, In n l -> get_task n w = None) ->
  next_to_start w l b = NoneStarted b.
Proof.
  revert b. induction l as [|n l IH]; intros b H; simpl; [reflexivity|].
  rewrite (H n) by (left; reflexivity).
  apply IH. intros m Hm. apply H. right. exact Hm.
Qed.

Lemma next_to_start_first_live (w : ITemplateDAGInstance)
      (pre post : list UUID) (n : UUID) (nt : ITask) (b : bool) :
  (forall m, In m pre ->
             get_task m w = None
             \/ exists mt, get_task m w = Some mt /\ status mt = SKIPPED) ->
  get_task n w = Some nt -> status nt <> SKIPPED ->
  next_to_start w (pre ++ n :: post) b = StartNext n.
Proof.
  revert b. induction pre as [|m pre IH]; intros b Hpre Hn Hst; simpl.
  - rewrite Hn. apply status_eqb_neq in Hst. rewrite Hst. reflexivity.
  - destruct (Hpre m (or_introl eq_refl)) as [Hm | [mt [Hm Hs]]].
    + rewrite Hm. apply IH; auto. intros x Hx. apply Hpre. right. exact Hx.
    + rewrite Hm, Hs. simpl. apply IH; auto. intros x Hx. apply Hpre. right. exact Hx.
Qed.

(** ** C10: [get_task] *)

(** C10.  [get_task] is a total function of the id and the instance: the
    instance's own id resolves to the instance itself, another id resolves
    to what the dict stores under it, and an id that is neither the
    instance's nor a key of the dict yields [None]. *)
Theorem C10_get_task_total (w : ITemplateDAGInstance) (k : UUID) :
  get_task (id (self w)) w = Some (self w)
  /\ (k <> id (self w) -> get_task k w = dict_get k (tasks w))
  /\ (k <> id (self w) -> ~ In k (map fst (tasks w)) -> get_task k w = None)
  /\ (k <> id (self w) ->
      forall t, NoDup (map fst (tasks w)) -> In (k, t) (tasks w) ->
                get_task k w = Some t).
Proof.
  unfold get_task. rewrite Nat.eqb_refl.
  split; [reflexivity|].
  assert (Hne : k <> id (self w) -> Nat.eqb k (id (self w)) = false)
    by (intro H; apply Nat.eqb_neq; exact H).
  split; [|split].
  - intro H. rewrite (Hne H). reflexivity.
  - intros H Hnot. rewrite (Hne H).
    induction (tasks w) as [|[k' t] d IH]; simpl in *; [reflexivity|].
    destruct (Nat.eqb k k') eqn:E.
    + apply Nat.eqb_eq in E. subst k'. exfalso. apply Hnot. left. reflexivity.
    + apply IH. intro Hin. apply Hnot. right. exact Hin.
  - intros H t Hnd Hin. rewrite (Hne H).
    induction (tasks w) as [|[k' t'] d IH]; simpl in *; [contradiction|].
    inversion Hnd as [|x l Hx Hnd' Heq]; subst.
    destruct Hin as [Heq | Hin].
    + inversion Heq; subst. rewrite Nat.eqb_refl. reflexivity.
    + destruct (Nat.eqb k k') eqn:E.
      * apply Nat.eqb_eq in E. subst k'. exfalso. apply Hx.
        apply (in_map fst) in Hin. exact Hin.
      * apply IH; assumption.
Qed.

Lemma C10_get_task_total_witness :
  get_task 0%nat Examples.decision = Some (self Examples.decision)
  /\ get_task 2%nat Examples.decision
     = Some (Examples.leaf ExecutorTask 2 (Some 0%nat) NOT_STARTED [])
  /\ get_task 9%nat Examples.decision = None.
Proof.
  destruct (C10_get_task_total Examples.decision 2%nat) as [H0 [_ [_ H2]]].
  destruct (C10_get_task_total Examples.decision 9%nat) as [_ [_ [H9 _]]].
  split; [exact H0|]. split.
  - apply H2.
    + simpl. discriminate.
    + simpl. repeat constructor; simpl; intuition discriminate.
    + simpl. right. left. reflexivity.
  - apply H9.
    + simpl. discriminate.
    + simpl. intuition discriminate.
Defined.

(** ** C1: what [on_complete] does after the status block *)

Lemma on_complete_unfold (ctx : Context) (fuel : nat) (k : UUID)
      (st : TaskStatusEnum) (iterate : bool) (s : State) (t : ITask) :
  lookup k s = Some t -> cls t <> TriggerTask ->
  on_complete ctx (S fuel) k st iterate s
  = ITask_on_complete ctx (run ctx fuel) k st iterate
                      (emit (EOnComplete k st iterate) s).
Proof.
  intros Hk Hc. unfold on_complete. simpl. rewrite Hk.
  destruct (cls t); try reflexivity. contradiction.
Qed.

(** C1, as the code has it.  Take a task whose class inherits
    [ITask.on_complete], and let [s1] be the state after the status block of
    [on_complete(status, iterate=True)].
    - If none of the listed successors resolves in the workflow and the
      parent does, the parent's [time_completed] is set to the task's and
      the rest of the call is the parent's [notify(status)].
    - If some listed successor resolves with a status other than SKIPPED,
      and every one listed before it is missing or SKIPPED, the rest of the
      call is the [start] of that successor and nothing else. *)
Theorem C1_on_complete_advance (ctx : Context) (fuel : nat) (k : UUID)
        (st : TaskStatusEnum) (s : State) (t t1 : ITask) :
  lookup k s = Some t -> cls t <> TriggerTask ->
  let s1 := mark_complete ctx k st (emit (EOnComplete k st true) s) in
  lookup k s1 = Some t1 ->
  (forall p pt,
      (forall n, In n (next_dags t1) -> lookup n s1 = None) ->
      parent_id t1 = Some p -> lookup p s1 = Some pt ->
      let s2 := modify p (set_time_completed (time_completed t1)) s1 in
      on_complete ctx (S fuel) k st true s = notify ctx fuel p st s2
      /\ lookup p s2 = Some (set_time_completed (time_completed t1) pt))
  /\ (forall pre n post nt,
         next_dags t1 = pre ++ n :: post ->
         (forall m, In m pre ->
                    lookup m s1 = None
                    \/ exists mt, lookup m s1 = Some mt /\ status mt = SKIPPED) ->
         lookup n s1 = Some nt -> status nt <> SKIPPED ->
         on_complete ctx (S fuel) k st true s = start ctx fuel n s1).
Proof.
  intros Hk Hc s1 Hk1. split.
  - intros p pt Hmiss Hp Hpt s2. split.
    + rewrite (on_complete_unfold ctx fuel k st true s t Hk Hc).
      unfold ITask_on_complete. simpl negb. cbv iota.
      fold s1. rewrite Hk1.
      rewrite (next_to_start_all_missing (instance s1) (next_dags t1) false Hmiss).
      rewrite Hp, Hpt. reflexivity.
    + unfold s2. rewrite lookup_modify by reflexivity.
      rewrite Nat.eqb_refl, Hpt. reflexivity.
  - intros pre n post nt Hnx Hpre Hn Hst.
    rewrite (on_complete_unfold ctx fuel k st true s t Hk Hc).
    unfold ITask_on_complete. simpl negb. cbv iota.
    fold s1. rewrite Hk1, Hnx.
    rewrite (next_to_start_first_live (instance s1) pre post n nt false Hpre Hn Hst).
    reflexivity.
Qed.

(** C1 at two inputs: leaf 2 of [missing_successor] hands over to its parent
    1, and leaf 2 of [two_live_successors] starts 4, the first successor
    that is not skipped. *)
Lemma C1_on_complete_advance_witness :
  (let s1 := mark_complete (Examples.quiet None true) 2 COMPLETED
               (emit (EOnComplete 2 COMPLETED true)
                     (Examples.fresh Examples.missing_successor)) in
   on_complete (Examples.quiet None true) 6 2 COMPLETED true
               (Examples.fresh Examples.missing_successor)
   = notify (Examples.quiet None true) 5 1 COMPLETED
            (modify 1%nat (set_time_completed 100) s1))
  /\ (let s1 := mark_complete (Examples.quiet None true) 2 COMPLETED
                  (emit (EOnComplete 2 COMPLETED true)
                        (Examples.fresh Examples.two_live_successors)) in
      on_complete (Examples.quiet None true) 6 2 COMPLETED true
                  (Examples.fresh Examples.two_live_successors)
      = start (Examples.quiet None true) 5 4 s1).
Proof.
  split.
  - refine (proj1 (proj1 (C1_on_complete_advance
             (Examples.quiet None true) 5 2 COMPLETED
             (Examples.fresh Examples.missing_successor)
             (Examples.leaf ExecutorTask 2 (Some 1%nat) EXECUTING [7%nat])
             (set_time_completed 100
                (Examples.leaf ExecutorTask 2 (Some 1%nat) COMPLETED [7%nat]))
             eq_refl _ eq_refl) 1%nat _ _ eq_refl eq_refl)).
    + discriminate.
    + intros n [Hn | []]. subst n. reflexivity.
  - refine (proj2 (C1_on_complete_advance
             (Examples.quiet None true) 5 2 COMPLETED
             (Examples.fresh Examples.two_live_successors)
             (Examples.leaf ExecutorTask 2 (Some 0%nat) EXECUTING [3%nat; 4%nat; 5%nat])
             (set_time_completed 100
                (Examples.leaf ExecutorTask 2 (Some 0%nat) COMPLETED [3%nat; 4%nat; 5%nat]))
             eq_refl _ eq_refl) [3%nat] 4%nat [5%nat] _ eq_refl _ eq_refl _).
    + discriminate.
    + intros m [Hm | []]. subst m. right. eexists. split; reflexivity.
    + discriminate.
Defined.

(** The claim C1 fails where a listed successor resolves and is SKIPPED:
    leaf 2 of [skipped_successor] has parent 1 and the single successor 3,
    which is SKIPPED.  No successor is started, and yet the parent is not
    notified and its [time_completed] stays 0 while the leaf's is 100. *)
Lemma C1_skipped_successor_blocks_parent :
  let r := on_complete (Examples.quiet None true) 10 2 COMPLETED true
                       (Examples.fresh Examples.skipped_successor) in
  fst r = Returned
  /\ trace (snd r) = [EOnComplete 2 COMPLETED true]
  /\ option_map time_completed (lookup 2 (snd r)) = Some 100
  /\ option_map time_completed (lookup 1 (snd r)) = Some 0
  /\ option_map status (lookup 1 (snd r)) = Some EXECUTING.
Proof. vm_compute. repeat split. Qed.

(** ** C2: [DecisionTask.start] *)

(** The loop of [DecisionTask.start] stops with [AttributeError] at the
    first successor that is not the chosen one, before any write. *)
Lemma skip_others_raises (choice : option UUID) (l : list UUID) (s : State) :
  (exists n, In n l /\ choice <> Some n) ->
  skip_others choice l s = (Raised AttributeError, s).
Proof.
  induction l as [|m l IH]; intros [n [Hin Hne]]; [destruct Hin|].
  simpl. destruct choice as [c|].
  - destruct (Nat.eqb m c) eqn:E; [|reflexivity].
    apply Nat.eqb_eq in E. subst m.
    destruct Hin as [Hn | Hin]; [subst n; congruence|].
    apply IH. exists n. split; assumption.
  - reflexivity.
Qed.

Lemma skip_others_only_choice (choice : option UUID) (l : list UUID) (s : State) :
  (forall n, In n l -> choice = Some n) ->
  skip_others choice l s = (Returned, s).
Proof.
  induction l as [|m l IH]; intro H; [reflexivity|].
  simpl. rewrite (H m (or_introl eq_refl)). rewrite Nat.eqb_refl.
  rewrite <- (H m (or_introl eq_refl)).
  apply IH. intros n Hn. apply H. right. exact Hn.
Qed.

(** A decision task in NOT_STARTED that lists a successor other than the one
    [evaluate] chose does not get through [start]: the call raises
    [AttributeError], the task is left EXECUTING and no other task is
    written. *)
Lemma DecisionTask_start_raises (ctx : Context) (fuel : nat) (k : UUID)
      (s : State) (t : ITask) :
  lookup k s = Some t -> cls t = DecisionTask -> status t = NOT_STARTED ->
  (exists n, In n (next_dags t)
             /\ evaluate ctx (mark_executing (now ctx) t)
                         (runtime_parameters (instance s)) <> Some n) ->
  start ctx (S fuel) k s
  = (Raised AttributeError,
     emit (EEvaluate k)
          (modify k (mark_executing (now ctx)) (emit (EStart k) s))).
Proof.
  intros Hk Hc Hs Hex. unfold start. simpl. rewrite Hk, Hc.
  unfold DecisionTask_start. rewrite lookup_emit, Hk, Hs. simpl.
  rewrite skip_others_raises by exact Hex. reflexivity.
Qed.

(** C2 at the scenario of the specification: the root has child D = 1 with
    [next_dags = [X; Y]] (X = 2, Y = 3) and [evaluate] returns Y.  Starting
    the root reaches [D.start], which raises [AttributeError] on X: X is not
    SKIPPED, Y is not advanced, D and the root stay EXECUTING. *)
Theorem C2_decision_skip_raises :
  let r := start (Examples.quiet (Some 3%nat) true) 20 0
                 (Examples.fresh Examples.decision) in
  fst r = Raised AttributeError
  /\ option_map status (lookup 2 (snd r)) = Some NOT_STARTED
  /\ option_map status (lookup 3 (snd r)) = Some NOT_STARTED
  /\ option_map status (lookup 1 (snd r)) = Some EXECUTING
  /\ option_map status (lookup 0 (snd r)) = Some EXECUTING
  /\ trace (snd r) = [EStart 0; EStart 1; EEvaluate 1].
Proof. vm_compute. repeat split. Qed.

(** ** C3: FAILURE set by [execute] *)

(** C3 on the code: [execute] sets FAILURE on a task with parent 0 and no
    successor.  On an ExecutorTask the status stays FAILURE and the parent
    is notified with FAILURE.  On a TriggerTask [start] does call
    [on_complete] with FAILURE, but [TriggerTask.on_complete] drops the
    argument: the task ends COMPLETED and the parent is notified with
    COMPLETED. *)
Theorem C3_trigger_failure_overwritten :
  (let r := start Examples.failing 20 1
                  (Examples.fresh (Examples.single ExecutorTask)) in
   fst r = Returned
   /\ option_map status (lookup 1 (snd r)) = Some FAILURE
   /\ trace (snd r)
      = [EStart 1; EExecute 1; EOnComplete 1 FAILURE true;
         ENotify 0 FAILURE; EOnComplete 0 FAILURE true])
  /\ (let r := start Examples.failing 20 1
                     (Examples.fresh (Examples.single TriggerTask)) in
      fst r = Returned
      /\ option_map status (lookup 1 (snd r)) = Some COMPLETED
      /\ trace (snd r)
         = [EStart 1; EExecute 1; EOnComplete 1 FAILURE true;
            ENotify 0 COMPLETED; EOnComplete 0 COMPLETED true]).
Proof. vm_compute. repeat split. Qed.

(** ** C7: [TriggerTask.start] before the trigger time *)

(** C7, as the code has it.  Before the trigger time [start] runs no
    [execute] and no completion; a task in NOT_STARTED is still moved to
    EXECUTING with [time_submitted = now], a task in another status is not
    written.  At or after the trigger time, or with no trigger time, the
    call goes on as [ExecutorTask.start] with [ignore_status=True]. *)
Theorem C7_trigger_start_gate (ctx : Context) (fuel : nat) (k : UUID)
        (s : State) (t : ITask) :
  lookup k s = Some t -> cls t = TriggerTask ->
  let s0 := emit (EStart k) s in
  let s1 := if status_eqb (status t) NOT_STARTED
            then modify k (mark_executing (now ctx)) s0 else s0 in
  (forall tte, time_to_execute t = Some tte -> tte <> 0 -> now ctx < tte ->
               start ctx (S fuel) k s = (Returned, s1))
  /\ ((time_to_execute t = None \/ time_to_execute t = Some 0
       \/ exists tte, time_to_execute t = Some tte /\ tte <= now ctx) ->
      start ctx (S fuel) k s = ExecutorTask_start ctx (run ctx fuel) k true s1).
Proof.
  intros Hk Hc s0 s1. unfold start. simpl. rewrite Hk, Hc.
  unfold TriggerTask_start. rewrite lookup_emit, Hk. fold s0. fold s1.
  split.
  - intros tte Ht Hz Hlt. rewrite Ht. simpl.
    destruct (Z.eqb_spec tte 0) as [E|_]; [contradiction|].
    destruct (Z.leb_spec tte (now ctx)) as [Hle|_]; [lia|]. reflexivity.
  - intros [Hn | [Hz | [tte [Ht Hle]]]].
    + rewrite Hn. reflexivity.
    + rewrite Hz. reflexivity.
    + rewrite Ht. simpl.
      destruct (Z.leb_spec tte (now ctx)) as [_|Hlt]; [|lia].
      rewrite orb_true_r. reflexivity.
Qed.

Lemma C7_trigger_start_gate_witness :
  start (Examples.quiet None true) 6 1
        (Examples.fresh (Examples.timed EXECUTING (Some 200)))
  = (Returned,
     emit (EStart 1) (Examples.fresh (Examples.timed EXECUTING (Some 200))))
  /\ start (Examples.quiet None true) 6 1
           (Examples.fresh (Examples.timed EXECUTING (Some 50)))
     = ExecutorTask_start (Examples.quiet None true)
         (run (Examples.quiet None true) 5) 1 true
         (emit (EStart 1) (Examples.fresh (Examples.timed EXECUTING (Some 50)))).
Proof.
  split.
  - refine (proj1 (C7_trigger_start_gate (Examples.quiet None true) 5 1
                     (Examples.fresh (Examples.timed EXECUTING (Some 200)))
                     _ eq_refl eq_refl) 200 eq_refl _ _).
    + discriminate.
    + reflexivity.
  - refine (proj2 (C7_trigger_start_gate (Examples.quiet None true) 5 1
                     (Examples.fresh (Examples.timed EXECUTING (Some 50)))
                     _ eq_refl eq_refl) _).
    right. right. exists 50. split; [reflexivity|discriminate].
Defined.

(** The claim C7 fails on a task in NOT_STARTED: at time 100 a trigger task
    due at 200 is started; its status and [time_submitted] change although
    the trigger time has not come. *)
Lemma C7_not_started_is_written :
  let r := start (Examples.quiet None true) 20 1
                 (Examples.fresh (Examples.timed NOT_STARTED (Some 200))) in
  fst r = Returned
  /\ option_map status (lookup 1 (snd r)) = Some EXECUTING
  /\ option_map time_submitted (lookup 1 (snd r)) = Some 100
  /\ trace (snd r) = [EStart 1].
Proof. vm_compute. repeat split. Qed.

(** ** C6: the join of [ParallelCompositeTask.notify] *)

Lemma status_in_terminal (st : TaskStatusEnum) :
  status_in st TERMINAL_STATUSES = true <-> terminal st.
Proof.
  unfold terminal, TERMINAL_STATUSES.
  destruct st; simpl; split; intro H; try reflexivity; try discriminate;
    intuition discriminate.
Qed.

Lemma scan_children_join_all (w : ITemplateDAGInstance) (l : list UUID)
      (a b : bool) :
  snd (scan_children JOIN_ALL w l a b) = true
  <-> b = true
      /\ forall c d, In c l -> get_task c w = Some d -> terminal (status d).
Proof.
  revert a b. induction l as [|c l IH]; intros a b; cbn [scan_children operator_eqb snd fst In].
  - split; [intro H; split; [exact H | intros ? ? []] | intros [H _]; exact H].
  - destruct (get_task c w) as [d|] eqn:Ec.
    + destruct (status_in (status d) TERMINAL_STATUSES) eqn:Et; cbn [scan_children operator_eqb snd fst In].
      * rewrite IH. split; intros [Hb H]; (split; [exact Hb|]).
        -- intros c' d' [Hc|Hc] Hg; [subst c'|eauto].
           rewrite Ec in Hg. inversion Hg; subst d'.
           apply status_in_terminal. exact Et.
        -- intros c' d' Hc Hg. apply (H c' d'); [right; exact Hc | exact Hg].
      * split; [discriminate|]. intros [_ H].
        specialize (H c d (or_introl eq_refl) Ec).
        apply status_in_terminal in H. congruence.
    + rewrite IH. split; intros [Hb H]; (split; [exact Hb|]).
      * intros c' d' [Hc|Hc] Hg; [subst c'; congruence | eauto].
      * intros c' d' Hc Hg. apply (H c' d'); [right; exact Hc | exact Hg].
Qed.

Lemma scan_children_atleast_one (w : ITemplateDAGInstance) (l : list UUID)
      (a b : bool) :
  fst (scan_children ATLEAST_ONE w l a b) = true
  <-> a = true
      \/ exists c d, In c l /\ get_task c w = Some d /\ terminal (status d).
Proof.
  revert a b. induction l as [|c l IH]; intros a b; cbn [scan_children operator_eqb snd fst In].
  - split; [intro H; left; exact H | intros [H | [? [? [[] _]]]]; exact H].
  - destruct (get_task c w) as [d|] eqn:Ec.
    + destruct (status_in (status d) TERMINAL_STATUSES) eqn:Et; cbn [scan_children operator_eqb snd fst In].
      * split; [intros _ | reflexivity].
        right. exists c, d. split; [left; reflexivity|].
        split; [exact Ec | apply status_in_terminal; exact Et].
      * rewrite IH. split; (intros [Ha | [c' [d' [Hc [Hg Ht]]]]]; [left; exact Ha|]).
        -- right. exists c', d'. split; [right; exact Hc | split; assumption].
        -- destruct Hc as [Hc|Hc].
           ++ subst c'. rewrite Ec in Hg. inversion Hg; subst d'.
              apply status_in_terminal in Ht. congruence.
           ++ right. exists c', d'. split; [exact Hc | split; assumption].
    + rewrite IH. split; (intros [Ha | [c' [d' [Hc [Hg Ht]]]]]; [left; exact Ha|]).
      * right. exists c', d'. split; [right; exact Hc | split; assumption].
      * destruct Hc as [Hc|Hc]; [subst c'; congruence|].
        right. exists c', d'. split; [exact Hc | split; assumption].
Qed.

(** The two flags of the loop decide the join condition. *)
Lemma join_satisfied_iff (t : ITask) (w : ITemplateDAGInstance) :
  join_satisfied t w = true <-> join_holds t w.
Proof.
  unfold join_satisfied, join_holds.
  destruct (operator_type t) eqn:Eop.
  - pose proof (scan_children_atleast_one w (parallel_child_task_list t) false true)
      as H.
    destruct (scan_children ATLEAST_ONE w (parallel_child_task_list t) false true)
      as [a b]. simpl in *.
    rewrite H. split; [intros [Hf | Hx]; [discriminate | exact Hx] | intro Hx; right; exact Hx].
  - pose proof (scan_children_join_all w (parallel_child_task_list t) false true)
      as H.
    destruct (scan_children JOIN_ALL w (parallel_child_task_list t) false true)
      as [a b]. simpl in *.
    rewrite orb_false_r. rewrite H.
    split; [intros [_ Hx]; exact Hx | intro Hx; split; [reflexivity | exact Hx]].
Qed.

(** C6, as the code has it.  When the parent's status differs from the
    incoming one, [notify(status)] goes on to the parent's
    [on_complete(status)] exactly when the join condition holds over the
    children that resolve; otherwise it returns at once.  The status passed
    to [on_complete] is the incoming one. *)
Theorem C6_parallel_notify_join (ctx : Context) (fuel : nat) (k : UUID)
        (st : TaskStatusEnum) (s : State) (t : ITask) :
  lookup k s = Some t -> cls t = ParallelCompositeTask -> status t <> st ->
  (join_holds t (instance s) ->
   notify ctx (S fuel) k st s
   = on_complete ctx fuel k st true (emit (ENotify k st) s))
  /\ (~ join_holds t (instance s) ->
      notify ctx (S fuel) k st s = (Returned, emit (ENotify k st) s)).
Proof.
  intros Hk Hc Hst. unfold notify. simpl. rewrite Hk, Hc.
  unfold ParallelCompositeTask_notify. rewrite lookup_emit, Hk.
  apply status_eqb_neq in Hst. rewrite Hst. simpl instance.
  split; intro Hj.
  - apply join_satisfied_iff in Hj. rewrite Hj. reflexivity.
  - destruct (join_satisfied t (instance s)) eqn:E; [|reflexivity].
    apply join_satisfied_iff in E. contradiction.
Qed.

(** C6 at two inputs: ATLEAST_ONE with one terminal child, and JOIN_ALL
    with one child still EXECUTING. *)
Lemma C6_parallel_notify_join_witness :
  notify (Examples.quiet None true) 6 1 COMPLETED
         (Examples.fresh (Examples.composite EXECUTING COMPLETED EXECUTING ATLEAST_ONE))
  = on_complete (Examples.quiet None true) 5 1 COMPLETED true
      (emit (ENotify 1 COMPLETED)
         (Examples.fresh (Examples.composite EXECUTING COMPLETED EXECUTING ATLEAST_ONE)))
  /\ notify (Examples.quiet None true) 6 1 FAILURE
            (Examples.fresh (Examples.composite EXECUTING FAILURE EXECUTING JOIN_ALL))
     = (Returned,
        emit (ENotify 1 FAILURE)
          (Examples.fresh (Examples.composite EXECUTING FAILURE EXECUTING JOIN_ALL))).
Proof.
  split.
  - refine (proj1 (C6_parallel_notify_join (Examples.quiet None true) 5 1 COMPLETED
              (Examples.fresh (Examples.composite EXECUTING COMPLETED EXECUTING ATLEAST_ONE))
              _ eq_refl eq_refl _) _).
    + discriminate.
    + exists 2%nat. eexists. split; [left; reflexivity|].
      split; [reflexivity | left; reflexivity].
  - refine (proj2 (C6_parallel_notify_join (Examples.quiet None true) 5 1 FAILURE
              (Examples.fresh (Examples.composite EXECUTING FAILURE EXECUTING JOIN_ALL))
              _ eq_refl eq_refl _) _).
    + discriminate.
    + intro H. specialize (H 3%nat _ (or_intror (or_introl eq_refl)) eq_refl).
      simpl in H. unfold terminal in H. simpl in H. intuition discriminate.
Defined.

(** The claim C6 fails where the parent already has the incoming status: a
    JOIN_ALL composite in COMPLETED whose children are both COMPLETED is
    notified with COMPLETED and its [on_complete] is not invoked. *)
Lemma C6_same_status_not_completed :
  let s := Examples.fresh
             (Examples.composite COMPLETED COMPLETED COMPLETED JOIN_ALL) in
  (forall c d, In c [2%nat; 3%nat] -> lookup c s = Some d -> terminal (status d))
  /\ notify (Examples.quiet None true) 20 1 COMPLETED s
     = (Returned, emit (ENotify 1 COMPLETED) s).
Proof.
  split.
  - intros c d [Hc | [Hc | []]] Hd; subst c; vm_compute in Hd;
      inversion Hd; subst d; left; reflexivity.
  - vm_compute. reflexivity.
Qed.

(** ** C4: what happens to a terminal status *)

Lemma mark_complete_same (ctx : Context) (k : UUID) (s : State) (t : ITask) :
  lookup k s = Some t -> mark_complete ctx k (status t) s = s.
Proof.
  intro Hk. unfold mark_complete. rewrite Hk, status_eqb_refl. reflexivity.
Qed.




(** ** C8: [match_only_one] in the dispatcher *)

Section MatchOnlyOne.

Variable ctx : Context.
Variable fuel : nat.
Variable topic_name : string.
Variable listener_match_only_one : bool.

Let turn := process_pair ctx fuel topic_name listener_match_only_one.
Let pairs_loop := process_pairs ctx fuel topic_name listener_match_only_one.

(** After a turn that ends in [break] the rest of the yielded pairs is not
    looked at. *)
Lemma process_pairs_break (i : nat) (k : UUID) (rest : list (nat * UUID))
      (insts : Instances) (s : State) (processed : bool) :
  nth_error insts i = Some s ->
  control (turn k s processed) = Break ->
  pairs_loop ((i, k) :: rest) insts processed
  = (replace_nth i (turn_state (turn k s processed)) insts,
     processed_task (turn k s processed), Break).
Proof.
  intros Hi Hb. unfold pairs_loop, turn in *. simpl. rewrite Hi, Hb. reflexivity.
Qed.

Lemma caught_control (r : Result) (processed : bool) (f : State -> Turn) :
  control (caught r processed f) = Break ->
  exists s, r = (Returned, s) /\ control (f s) = Break.
Proof.
  destruct r as [[| e |] s]; simpl; intro H; try discriminate.
  exists s. split; [reflexivity | exact H].
Qed.

(** A turn can only end in [break] with [match_only_one] set. *)
Lemma deliver_break (k : UUID) (s : State) (processed : bool) :
  control (deliver ctx fuel listener_match_only_one k s processed) = Break ->
  listener_match_only_one = true.
Proof.
  unfold deliver. destruct (lookup k s) as [t|]; [|discriminate].
  destruct (status_eqb (status t) COMPLETED).
  - destruct (reprocess_on_message t); intro H;
      apply caught_control in H; destruct H as [s' [_ H]]; discriminate H.
  - destruct (negb (status_eqb (status t) EXECUTING)
              && (negb (status_eqb (status t) SKIPPED) || negb (allow_skip_to t)));
      [discriminate|].
    destruct (call_on_message ctx k s) as [r completed].
    intro H. apply caught_control in H. destruct H as [s1 [_ H]].
    apply caught_control in H. destruct H as [s2 [_ H]]. simpl in H.
    destruct listener_match_only_one; [reflexivity | discriminate].
Qed.

Lemma process_pair_break (k : UUID) (s : State) (processed : bool) :
  control (turn k s processed) = Break -> listener_match_only_one = true.
Proof.
  unfold turn, process_pair. destruct (lookup k s) as [t|]; [|discriminate].
  destruct (topic t) as [tp|]; [|discriminate].
  destruct (String.eqb tp EmptyString || negb (String.eqb tp topic_name));
    [discriminate|].
  destruct (status_eqb (status t) NOT_STARTED && allow_skip_to t).
  - destruct (match root_dag (self (instance s)) with
              | Some r => get_remaining_tasks fuel (instance s) r [] (id t)
              | None => Some []
              end); [|discriminate].
    intro H. apply caught_control in H. destruct H as [s2 [_ H]].
    apply deliver_break in H. exact H.
  - apply deliver_break.
Qed.

(** A task found in COMPLETED is restarted or reprocessed and the loop goes
    on, whatever [match_only_one] says. *)
Lemma process_pair_completed (k : UUID) (s : State) (t : ITask)
      (processed : bool) :
  lookup k s = Some t -> status t = COMPLETED ->
  control (turn k s processed) <> Break.
Proof.
  intros Hk Hs. unfold turn, process_pair. rewrite Hk.
  destruct (topic t) as [tp|]; [|discriminate].
  destruct (String.eqb tp EmptyString || negb (String.eqb tp topic_name));
    [discriminate|].
  rewrite Hs. simpl. unfold deliver. rewrite Hk, Hs. simpl.
  destruct (reprocess_on_message t); intro H;
    apply caught_control in H; destruct H as [s' [_ H]]; discriminate H.
Qed.

(** C8, as the code has it, for the pairs yielded for one mapping.
    - A turn ends the loop only with [match_only_one] set, and then no
      later pair is looked at.
    - With [match_only_one] set, a sensor on the agent's topic that is
      EXECUTING (or SKIPPED with [allow_skip_to]) gets the event through
      [on_message]; once the handling returns, the loop ends there, whether
      or not [on_message] reported completion.
    - A task found in COMPLETED never ends the loop. *)
Theorem C8_match_only_one_stops (i : nat) (k : UUID)
        (rest : list (nat * UUID)) (insts : Instances) (s : State) (t : ITask)
        (processed : bool) :
  nth_error insts i = Some s -> lookup k s = Some t ->
  (control (turn k s processed) = Break ->
   listener_match_only_one = true
   /\ pairs_loop ((i, k) :: rest) insts processed
      = (replace_nth i (turn_state (turn k s processed)) insts,
         processed_task (turn k s processed), Break))
  /\ (listener_match_only_one = true ->
      cls t = SensorTask -> topic t = Some topic_name ->
      topic_name <> EmptyString ->
      status t = EXECUTING \/ (status t = SKIPPED /\ allow_skip_to t = true) ->
      forall t' rp' completed s2,
        on_message ctx t (runtime_parameters (instance s)) = (t', rp', completed) ->
        (if completed
         then on_complete ctx fuel k COMPLETED true
                (set_runtime_parameters rp'
                   (modify k (fun _ => t') (emit (EOnMessage k) s)))
         else (Returned,
               set_runtime_parameters rp'
                 (modify k (fun _ => t') (emit (EOnMessage k) s))))
        = (Returned, s2) ->
        pairs_loop ((i, k) :: rest) insts processed
        = (replace_nth i s2 insts, true, Break))
  /\ (status t = COMPLETED ->
      control (turn k s processed) <> Break).
Proof.
  intros Hi Hk. split; [|split].
  - intro Hb. split; [exact (process_pair_break k s processed Hb)|].
    apply process_pairs_break; assumption.
  - intros Hmo Hc Htp Hne Hst t' rp' completed s2 Hmsg Hdone.
    assert (Hturn : turn k s processed = mkTurn s2 true Break).
    { unfold turn, process_pair. rewrite Hk, Htp.
      rewrite String.eqb_refl.
      assert (He : String.eqb topic_name EmptyString = false)
        by (apply String.eqb_neq; exact Hne).
      rewrite He. simpl.
      assert (Hns : status_eqb (status t) NOT_STARTED = false)
        by (destruct Hst as [Hs | [Hs _]]; rewrite Hs; reflexivity).
      rewrite Hns. simpl.
      unfold deliver. rewrite Hk.
      assert (Hnc : status_eqb (status t) COMPLETED = false)
        by (destruct Hst as [Hs | [Hs _]]; rewrite Hs; reflexivity).
      rewrite Hnc.
      assert (Hgo : negb (status_eqb (status t) EXECUTING)
                    && (negb (status_eqb (status t) SKIPPED)
                        || negb (allow_skip_to t)) = false)
        by (destruct Hst as [Hs | [Hs Ha]]; rewrite Hs; [|rewrite Ha]; reflexivity).
      rewrite Hgo. unfold call_on_message. rewrite Hk, Hc, Hmsg.
      simpl caught. rewrite Hdone. simpl. rewrite Hmo. reflexivity. }
    unfold pairs_loop. simpl. rewrite Hi. fold turn. rewrite Hturn. reflexivity.
  - intro Hs. apply (process_pair_completed k s t processed Hk Hs).
Qed.

End MatchOnlyOne.

(** C8 at the workflow with the sensors 1 and 2, both EXECUTING on
    ["orders"], [match_only_one] set and [on_message] reporting that the
    sensor is not complete: the loop ends after sensor 1. *)
Lemma C8_match_only_one_stops_witness :
  let s := Examples.fresh (Examples.two_sensors EXECUTING EXECUTING false) in
  process_pairs (Examples.quiet None false) 5 "orders" true
                [(0%nat, 1%nat); (0%nat, 2%nat)] [s] false
  = ([emit (EOnMessage 1) s], true, Break).
Proof.
  intro s.
  refine (proj1 (proj2 (C8_match_only_one_stops (Examples.quiet None false) 5
            "orders" true 0 1 [(0%nat, 2%nat)] [s] s _ false eq_refl eq_refl))
            eq_refl eq_refl eq_refl _ (or_introl eq_refl) _ _ false _
            eq_refl eq_refl).
  discriminate.
Defined.

(** The claim C8 fails in its last part: the listener has [match_only_one],
    the sensors 1 and 2 are EXECUTING on the topic and [on_message] reports
    that the sensor is not complete.  No status changes, and yet the
    dispatch stops after sensor 1: sensor 2 never sees the event. *)
Lemma C8_stops_without_status_change :
  let w := Examples.two_sensors EXECUTING EXECUTING false in
  let '(insts, processed, outcome) :=
    process_event_helper (Examples.quiet None false) 20 "orders" true
                         [Yields [(0%nat, 1%nat); (0%nat, 2%nat)]]
                         [Examples.fresh w] false in
  outcome = Returned
  /\ map (fun s => map (fun k => option_map status (lookup k s)) [1%nat; 2%nat])
         insts
     = [[Some EXECUTING; Some EXECUTING]]
  /\ map trace insts = [[EOnMessage 1]].
Proof. vm_compute. repeat split. Qed.

(** The [break] leaves the loop over the pairs of one mapping only: with
    two mappings, each yielding one sensor, both sensors get the event
    although [match_only_one] is set. *)
Lemma match_only_one_per_mapping :
  let w := Examples.two_sensors EXECUTING EXECUTING false in
  let '(insts, processed, outcome) :=
    process_event_helper (Examples.quiet None false) 20 "orders" true
                         [Yields [(0%nat, 1%nat)]; Yields [(0%nat, 2%nat)]]
                         [Examples.fresh w] false in
  outcome = Returned /\ map trace insts = [[EOnMessage 1; EOnMessage 2]].
Proof. vm_compute. repeat split. Qed.

(** ** Invariants of the cascade *)

Lemma next_to_start_in (w : ITemplateDAGInstance) (l : list UUID) (b : bool)
      (n : UUID) :
  next_to_start w l b = StartNext n -> In n l.
Proof.
  revert b. induction l as [|m l IH]; intros b; simpl; [discriminate|].
  destruct (get_task m w) as [mt|].
  - destruct (status_eqb (status mt) SKIPPED).
    + intro H. right. exact (IH _ H).
    + intro H. inversion H. left. reflexivity.
  - intro H. right. exact (IH _ H).
Qed.

Lemma mark_complete_status (ctx : Context) (k : UUID) (st : TaskStatusEnum)
      (s : State) (t : ITask) :
  lookup k (mark_complete ctx k st s) = Some t -> status t = st.
Proof.
  rewrite lookup_mark_complete, Nat.eqb_refl.
  destruct (lookup k s) as [t0|]; simpl; [|discriminate].
  destruct (status_eqb (status t0) st) eqn:E; intro H; inversion H; subst t.
  - apply status_eqb_eq. exact E.
  - reflexivity.
Qed.

Lemma skip_others_state (choice : option UUID) (l : list UUID) (s : State) :
  snd (skip_others choice l s) = s.
Proof.
  induction l as [|n l IH]; simpl; [reflexivity|].
  destruct (match choice with Some chosen => Nat.eqb n chosen | None => false end);
    [exact IH | reflexivity].
Qed.

Lemma status_in_replay (st : TaskStatusEnum) :
  status_in st [COMPLETED; SKIPPED] = true -> terminal st.
Proof.
  destruct st; simpl; intro H; try discriminate.
  - left. reflexivity.
  - right. left. reflexivity.
Qed.

(** A property of the state that every write of the engine keeps, for the
    calls that the cascade can reach, is kept by every call.  [ok] says
    which calls are in reach; the hypotheses say that [I] survives each
    elementary write and that [ok] follows the graph. *)
Section Preservation.

Variable ctx : Context.
Variable I : State -> Prop.
Variable ok : Call -> Prop.

Hypothesis I_emit_start :
  forall k s, ok (CStart k) -> I s -> I (emit (EStart k) s).
Hypothesis I_emit_complete :
  forall k st it s, ok (COnComplete k st it) -> I s ->
                    I (emit (EOnComplete k st it) s).
Hypothesis I_emit_notify :
  forall k st s, ok (CNotify k st) -> I s -> I (emit (ENotify k st) s).
Hypothesis I_emit_evaluate :
  forall k s, ok (CStart k) -> I s -> I (emit (EEvaluate k) s).
Hypothesis I_executing :
  forall k s, ok (CStart k) -> I s -> I (modify k (mark_executing (now ctx)) s).
Hypothesis I_execute :
  forall k s, ok (CStart k) -> I s -> I (call_execute ctx k s).
Hypothesis I_mark :
  forall k st it s, ok (COnComplete k st it) -> I s -> I (mark_complete ctx k st s).
Hypothesis I_parent :
  forall k st t p s,
    ok (COnComplete k st true) -> I s -> lookup k s = Some t ->
    status t = st -> parent_id t = Some p ->
    I (modify p (set_time_completed (time_completed t)) s).

Hypothesis ok_replay :
  forall k st, ok (CStart k) -> terminal st -> ok (COnComplete k st true).
Hypothesis ok_trigger :
  forall k st it, ok (COnComplete k st it) -> ok (COnComplete k COMPLETED it).
Hypothesis ok_next :
  forall k st t n s,
    ok (COnComplete k st true) -> I s -> lookup k s = Some t ->
    In n (next_dags t) -> ok (CStart n).
Hypothesis ok_parent :
  forall k st t p s,
    ok (COnComplete k st true) -> I s -> lookup k s = Some t ->
    parent_id t = Some p -> ok (CNotify p st).
Hypothesis ok_notify :
  forall k st, ok (CNotify k st) -> ok (COnComplete k st true).
Hypothesis ok_root_dag :
  forall k t r s,
    ok (CStart k) -> I s -> lookup k s = Some t -> root_dag t = Some r ->
    ok (CStart r).
Hypothesis ok_children :
  forall k t c s,
    ok (CStart k) -> I s -> lookup k s = Some t ->
    In c (parallel_child_task_list t) -> ok (CStart c).
Hypothesis ok_monitor :
  forall k st task m,
    ok (COnComplete k st true) -> get_monitoring_task ctx task = Some m ->
    ok (COnComplete m COMPLETED true).

Section Step.

Variable rec : Call -> State -> Result.
Hypothesis rec_keeps : forall c s, ok c -> I s -> I (snd (rec c s)).

Lemma andThen_keeps (r : Result) (f : State -> Result) :
  I (snd r) -> (forall s, I s -> I (snd (f s))) -> I (snd (r >> f)).
Proof.
  destruct r as [[| e |] s]; simpl; intros Hr Hf; [apply Hf|..]; exact Hr.
Qed.

Lemma root_cleanup_keeps (keys : list UUID) (s : State) :
  (forall task m, get_monitoring_task ctx task = Some m ->
                  ok (COnComplete m COMPLETED true)) ->
  I s -> I (snd (root_cleanup ctx rec keys s)).
Proof.
  intro Hok. revert s. induction keys as [|x keys IH]; intros s HI; simpl;
    [exact HI|].
  destruct (dict_get x (tasks (instance s))) as [task|]; [|apply IH; exact HI].
  destruct (get_monitoring_task ctx task) as [m|] eqn:Hm; [|apply IH; exact HI].
  destruct (lookup m s); [|apply IH; exact HI].
  apply andThen_keeps; [|exact IH].
  apply rec_keeps; [|exact HI]. exact (Hok task m Hm).
Qed.

Lemma ITask_on_complete_keeps (k : UUID) (st : TaskStatusEnum) (it : bool)
      (s : State) :
  ok (COnComplete k st it) -> I s ->
  I (snd (ITask_on_complete ctx rec k st it s)).
Proof.
  intros Hok HI. unfold ITask_on_complete.
  assert (H1 : I (mark_complete ctx k st s)) by (apply I_mark with it; assumption).
  destruct it; simpl; [|exact H1].
  destruct (lookup k (mark_complete ctx k st s)) as [t|] eqn:Hk; [|exact H1].
  destruct (next_to_start (instance (mark_complete ctx k st s)) (next_dags t) false)
    as [n | submitted] eqn:Hn.
  - apply rec_keeps; [|exact H1].
    apply (ok_next k st t n _ Hok H1 Hk). exact (next_to_start_in _ _ _ _ Hn).
  - assert (Hroot : I (snd (if type_eqb (task_type t) ROOT
                            then root_cleanup ctx rec
                                   (map fst (tasks (instance (mark_complete ctx k st s))))
                                   (mark_complete ctx k st s)
                            else (Returned, mark_complete ctx k st s)))).
    { destruct (type_eqb (task_type t) ROOT); [|exact H1].
      apply root_cleanup_keeps; [|exact H1].
      intros task m Hm. exact (ok_monitor k st task m Hok Hm). }
    destruct submitted; [exact Hroot|].
    destruct (parent_id t) as [p|] eqn:Hp; [|exact Hroot].
    destruct (lookup p (mark_complete ctx k st s)); [|exact H1].
    apply rec_keeps.
    + exact (ok_parent k st t p _ Hok H1 Hk Hp).
    + apply (I_parent k st t p _ Hok H1 Hk); [|exact Hp].
      exact (mark_complete_status ctx k st s t Hk).
Qed.

Lemma ExecutorTask_start_keeps (k : UUID) (ignore_status : bool) (s : State) :
  ok (CStart k) -> I s ->
  I (snd (ExecutorTask_start ctx rec k ignore_status s)).
Proof.
  intros Hok HI. unfold ExecutorTask_start.
  destruct (lookup k s) as [t|]; [|exact HI].
  destruct (status_in (status t) [COMPLETED; SKIPPED]) eqn:Hr.
  - apply rec_keeps; [|exact HI].
    apply ok_replay; [exact Hok | exact (status_in_replay _ Hr)].
  - match goal with
    | |- context [lookup k ?x] => assert (H1 : I x)
    end.
    { destruct (ignore_status || status_eqb (status t) NOT_STARTED); [|exact HI].
      apply I_execute; [exact Hok|]. apply I_executing; assumption. }
    match goal with
    | |- context [lookup k ?x] => destruct (lookup k x) as [t1|]; [|exact H1]
    end.
    destruct (status_eqb (status t1) FAILURE) eqn:Hf.
    + apply rec_keeps; [|exact H1]. apply ok_replay; [exact Hok|].
      apply status_eqb_eq in Hf. rewrite Hf.
      right. right. left. reflexivity.
    + apply rec_keeps; [|exact H1]. apply ok_replay; [exact Hok|].
      left. reflexivity.
Qed.

Lemma start_children_keeps (k : UUID) (l : list UUID) (s : State) :
  ok (CStart k) ->
  (forall s', I s' -> forall c, In c l -> ok (CStart c)) ->
  I s -> I (snd (start_children rec l s)).
Proof.
  intros Hok. revert s. induction l as [|c l IH]; intros s Hl HI; simpl;
    [exact HI|].
  assert (Hl' : forall s', I s' -> forall c', In c' l -> ok (CStart c'))
    by (intros s' Hs' c' Hc'; apply (Hl s' Hs'); right; exact Hc').
  destruct (lookup c s); [|apply IH; assumption].
  apply andThen_keeps.
  - apply rec_keeps; [|exact HI]. apply (Hl s HI). left. reflexivity.
  - intros s' Hs'. apply IH; assumption.
Qed.

Lemma step_keeps (c : Call) (s : State) :
  ok c -> I s -> I (snd (step ctx rec c s)).
Proof.
  intros Hok HI. destruct c as [k | k st it | k st]; simpl.
  - destruct (lookup k s) as [t|] eqn:Hk; [|exact HI].
    assert (H0 : I (emit (EStart k) s)) by (apply I_emit_start; assumption).
    assert (Hk0 : lookup k (emit (EStart k) s) = Some t) by exact Hk.
    destruct (cls t).
    + apply ExecutorTask_start_keeps; assumption.
    + unfold TriggerTask_start. rewrite Hk0.
      match goal with
      | |- context [ExecutorTask_start ctx rec k true ?x] => assert (H1 : I x)
      end.
      { destruct (status_eqb (status t) NOT_STARTED); [|exact H0].
        apply I_executing; assumption. }
      match goal with
      | |- context [if ?b then ExecutorTask_start _ _ _ _ _ else _] => destruct b
      end; [|exact H1].
      apply ExecutorTask_start_keeps; assumption.
    + unfold DecisionTask_start. rewrite Hk0.
      destruct (status_in (status t) [COMPLETED; SKIPPED]).
      * apply rec_keeps; [|exact H0]. apply ok_replay; [exact Hok|].
        left. reflexivity.
      * apply andThen_keeps.
        -- destruct (status_eqb (status t) NOT_STARTED); [|exact H0].
           rewrite skip_others_state. apply I_emit_evaluate; [exact Hok|].
           apply I_executing; assumption.
        -- intros s' Hs'. apply rec_keeps; [|exact Hs'].
           apply ok_replay; [exact Hok|]. left. reflexivity.
    + unfold SensorTask_start. rewrite Hk0.
      destruct (status_in (status t) [COMPLETED; SKIPPED]) eqn:Hr.
      * apply rec_keeps; [|exact H0].
        apply ok_replay; [exact Hok | exact (status_in_replay _ Hr)].
      * destruct (status_eqb (status t) NOT_STARTED); [|exact H0].
        apply I_executing; assumption.
    + unfold INonLeafNodeTask_start. rewrite Hk0.
      destruct (status_in (status t) [COMPLETED; SKIPPED]) eqn:Hr.
      * apply rec_keeps; [|exact H0].
        apply ok_replay; [exact Hok | exact (status_in_replay _ Hr)].
      * match goal with
        | |- context [lookup _ ?x] => assert (H1 : I x)
        end.
        { destruct (status_eqb (status t) NOT_STARTED
                    || status_eqb (status t) SUBMITTED); [|exact H0].
          apply I_executing; assumption. }
        destruct (root_dag t) as [r|] eqn:Hr0; [|exact H1].
        match goal with
        | |- context [lookup r ?x] => destruct (lookup r x); [|exact H1]
        end.
        apply rec_keeps; [|exact H1].
        exact (ok_root_dag k t r _ Hok H0 Hk0 Hr0).
    + unfold ParallelCompositeTask_start. rewrite Hk0.
      destruct (status_in (status t) TERMINAL_STATUSES) eqn:Hr.
      * apply rec_keeps; [|exact H0].
        apply ok_replay; [exact Hok | apply status_in_terminal; exact Hr].
      * apply (start_children_keeps k); [exact Hok | |].
        -- intros s' Hs' c Hc. exact (ok_children k t c _ Hok H0 Hk0 Hc).
        -- destruct (status_eqb (status t) NOT_STARTED
                     || status_eqb (status t) SUBMITTED); [|exact H0].
           apply I_executing; [exact Hok|]. apply I_executing; assumption.
  - destruct (lookup k s) as [t|]; [|exact HI].
    assert (H0 : I (emit (EOnComplete k st it) s))
      by (apply I_emit_complete; assumption).
    destruct (cls t); try (apply ITask_on_complete_keeps; assumption).
    unfold TriggerTask_on_complete. apply ITask_on_complete_keeps; [|exact H0].
    exact (ok_trigger k st it Hok).
  - destruct (lookup k s) as [t|] eqn:Hk; [|exact HI].
    assert (H0 : I (emit (ENotify k st) s)) by (apply I_emit_notify; assumption).
    assert (Hgo : I (snd (rec (COnComplete k st true) (emit (ENotify k st) s))))
      by (apply rec_keeps; [apply ok_notify; exact Hok | exact H0]).
    destruct (cls t);
      try (unfold ITask_notify; rewrite lookup_emit, Hk;
           destruct (status_eqb (status t) st); [exact H0 | exact Hgo]).
    unfold ParallelCompositeTask_notify. rewrite lookup_emit, Hk.
    destruct (status_eqb (status t) st); [exact H0|].
    destruct (join_satisfied t (instance (emit (ENotify k st) s)));
      [exact Hgo | exact H0].
Qed.

End Step.

(** Every call in reach keeps [I], whatever the fuel and the outcome. *)
Theorem run_keeps (fuel : nat) (c : Call) (s : State) :
  ok c -> I s -> I (snd (run ctx fuel c s)).
Proof.
  revert c s. induction fuel as [|fuel IH]; intros c s Hok HI; simpl.
  - exact HI.
  - apply step_keeps; assumption.
Qed.

End Preservation.

(** ** C5: [time_completed] of a terminal task *)

Lemma lookup_set_runtime_parameters (n : UUID) (rp : RuntimeParameters)
      (s : State) :
  lookup n (set_runtime_parameters rp s) = lookup n s.
Proof. reflexivity. Qed.

Lemma stamped_executing (z : Z) (k : UUID) (s : State) :
  stamped s -> stamped (modify k (mark_executing z) s).
Proof.
  intros HI n t. rewrite lookup_modify by reflexivity.
  destruct (Nat.eqb n k); [|apply HI].
  destruct (lookup k s) as [t0|]; simpl; [|discriminate].
  intro H. inversion H; subst t. unfold terminal. simpl.
  intuition discriminate.
Qed.

Lemma stamped_replace (k : UUID) (t' : ITask) (s : State) :
  (forall t, lookup k s = Some t -> id t' = id t) ->
  (terminal (status t') -> 0 < time_completed t') ->
  stamped s -> stamped (modify k (fun _ => t') s).
Proof.
  intros Hid Ht HI n t. rewrite lookup_modify by exact Hid.
  destruct (Nat.eqb n k); [|apply HI].
  destruct (lookup k s); simpl; [|discriminate].
  intro H. inversion H; subst t. exact Ht.
Qed.

Lemma stamped_mark_complete (ctx : Context) (k : UUID) (st : TaskStatusEnum)
      (s : State) :
  0 < now ctx -> stamped s -> stamped (mark_complete ctx k st s).
Proof.
  intros Hnow HI n t. rewrite lookup_mark_complete.
  destruct (Nat.eqb n k); [|apply HI].
  destruct (lookup k s) as [t0|] eqn:Hk; simpl; [|discriminate].
  destruct (status_eqb (status t0) st); intro H; inversion H; subst t.
  - apply (HI k). exact Hk.
  - intros _. simpl. destruct (Z.ltb_spec 0 (time_completed t0)); assumption.
Qed.

Lemma stamped_call_execute (ctx : Context) (k : UUID) (s : State) :
  execute_stamps ctx -> stamped s -> stamped (call_execute ctx k s).
Proof.
  intros Hex HI. unfold call_execute.
  destruct (lookup k s) as [t|] eqn:Hk; [|exact HI].
  destruct (Hex t (runtime_parameters (instance s))) as [Hid Hst].
  destruct (execute ctx t (runtime_parameters (instance s))) as [t' rp'].
  simpl in Hid, Hst.
  intros n x. rewrite lookup_set_runtime_parameters. revert n x.
  apply stamped_replace; [| exact (Hst (HI k t Hk)) | exact HI].
  intros t0 H0. rewrite lookup_emit, Hk in H0. inversion H0; subst t0. exact Hid.
Qed.

Lemma run_stamped (ctx : Context) (fuel : nat) (c : Call) (s : State) :
  0 < now ctx -> execute_stamps ctx -> terminal_call c -> stamped s ->
  stamped (snd (run ctx fuel c s)).
Proof.
  intros Hnow Hex. apply (run_keeps ctx stamped terminal_call).
  - intros k s0 _ HI. exact HI.
  - intros k st it s0 _ HI. exact HI.
  - intros k st s0 _ HI. exact HI.
  - intros k s0 _ HI. exact HI.
  - intros k s0 _ HI. apply stamped_executing. exact HI.
  - intros k s0 _ HI. apply stamped_call_execute; assumption.
  - intros k st it s0 _ HI. apply stamped_mark_complete; assumption.
  - intros k st t p s0 Hok HI Hk Hst Hp n x.
    rewrite lookup_modify by reflexivity.
    destruct (Nat.eqb n p); [|apply HI].
    destruct (lookup p s0) as [pt|] eqn:Hpt; simpl; [|discriminate].
    intro H. inversion H; subst x. simpl. intros _.
    apply (HI k t Hk). rewrite Hst. exact Hok.
  - intros k st _ Ht. exact Ht.
  - intros k st it _. left. reflexivity.
  - intros. exact Logic.I.
  - intros k st t p s0 Hok _ _ _. exact Hok.
  - intros k st Hok. exact Hok.
  - intros. exact Logic.I.
  - intros. exact Logic.I.
  - intros. left. reflexivity.
Qed.

Section DispatchStamped.

Variable ctx : Context.
Variable fuel : nat.
Variable topic_name : string.
Variable listener_match_only_one : bool.
Hypothesis clock_positive : 0 < now ctx.
Hypothesis execute_ok : execute_stamps ctx.
Hypothesis on_message_ok : on_message_stamps ctx.

Lemma caught_stamped (r : Result) (processed : bool) (f : State -> Turn) :
  stamped (snd r) -> (forall s, stamped s -> stamped (turn_state (f s))) ->
  stamped (turn_state (caught r processed f)).
Proof.
  destruct r as [[| e |] s]; simpl; intros Hr Hf; [apply Hf|..]; exact Hr.
Qed.

Lemma skip_previous_stamped (l : list UUID) (s : State) :
  stamped s -> stamped (snd (skip_previous ctx fuel l s)).
Proof.
  revert s. induction l as [|x l IH]; intros s HI; cbn [skip_previous];
    [exact HI|].
  destruct (lookup x s) as [t|]; [|apply IH; exact HI].
  destruct (status_in (status t) [NOT_STARTED; EXECUTING]); [|apply IH; exact HI].
  pose proof (run_stamped ctx fuel (COnComplete x SKIPPED false) s
                clock_positive execute_ok
                (or_intror (or_introl eq_refl)) HI) as H.
  unfold on_complete.
  destruct (run ctx fuel (COnComplete x SKIPPED false) s) as [[| e |] s'];
    unfold andThen; cbn [snd] in *; [exact (IH s' H) | exact H | exact H].
Qed.

Lemma call_on_message_stamped (k : UUID) (s : State) :
  stamped s -> stamped (snd (fst (call_on_message ctx k s))).
Proof.
  intro HI. unfold call_on_message.
  destruct (lookup k s) as [t|] eqn:Hk; [|exact HI].
  destruct (cls t); try exact HI.
  destruct (on_message_ok t (runtime_parameters (instance s))) as [Hid Hst].
  destruct (on_message ctx t (runtime_parameters (instance s))) as [[t' rp'] done].
  simpl in *. intros n x. rewrite lookup_set_runtime_parameters. revert n x.
  apply stamped_replace; [| exact (Hst (HI k t Hk)) | exact HI].
  intros t0 H0. rewrite lookup_emit, Hk in H0. inversion H0; subst t0. exact Hid.
Qed.

Lemma deliver_stamped (k : UUID) (s : State) (processed : bool) :
  stamped s ->
  stamped (turn_state (deliver ctx fuel listener_match_only_one k s processed)).
Proof.
  intro HI. unfold deliver.
  destruct (lookup k s) as [t|]; [|exact HI].
  destruct (status_eqb (status t) COMPLETED).
  - destruct (reprocess_on_message t); apply caught_stamped;
      try (intros s' Hs'; exact Hs').
    + apply call_on_message_stamped. exact HI.
    + apply run_stamped; try assumption. exact Logic.I.
  - match goal with |- context [if ?b then mkTurn _ _ _ else _] => destruct b end;
      [exact HI|].
    pose proof (call_on_message_stamped k s HI) as Hm.
    destruct (call_on_message ctx k s) as [r done]. simpl in Hm.
    apply caught_stamped; [exact Hm|].
    intros s1 Hs1. apply caught_stamped; [|intros s2 Hs2; exact Hs2].
    destruct done; [|exact Hs1].
    apply run_stamped; try assumption. left. reflexivity.
Qed.

Lemma process_pair_stamped (k : UUID) (s : State) (processed : bool) :
  stamped s ->
  stamped (turn_state
             (process_pair ctx fuel topic_name listener_match_only_one
                           k s processed)).
Proof.
  intro HI. unfold process_pair.
  destruct (lookup k s) as [t|]; [|exact HI].
  destruct (topic t) as [tp|]; [|exact HI].
  destruct (String.eqb tp EmptyString || negb (String.eqb tp topic_name));
    [exact HI|].
  destruct (status_eqb (status t) NOT_STARTED && allow_skip_to t);
    [|apply deliver_stamped; exact HI].
  destruct (match root_dag (self (instance s)) with
            | Some r => get_remaining_tasks fuel (instance s) r [] (id t)
            | None => Some []
            end) as [previous_tasks|]; [|exact HI].
  apply caught_stamped.
  - apply skip_previous_stamped. apply stamped_executing. exact HI.
  - intros s2 Hs2. apply deliver_stamped. exact Hs2.
Qed.

Lemma replace_nth_Forall (P : State -> Prop) (i : nat) (s : State)
      (l : Instances) :
  P s -> Forall P l -> Forall P (replace_nth i s l).
Proof.
  intros Hs Hl. revert i. induction Hl as [|x l Hx Hl IH]; intro i; simpl.
  - destruct i; constructor.
  - destruct i; constructor; auto.
Qed.

Lemma process_pairs_stamped (pairs : list (nat * UUID)) (insts : Instances)
      (processed : bool) :
  Forall stamped insts ->
  Forall stamped
         (fst (fst (process_pairs ctx fuel topic_name listener_match_only_one
                                  pairs insts processed))).
Proof.
  revert insts processed.
  induction pairs as [|[i k] pairs IH]; intros insts processed HI; simpl;
    [exact HI|].
  destruct (nth_error insts i) as [s|] eqn:Hi; [|apply IH; exact HI].
  assert (Hs : stamped s).
  { rewrite Forall_forall in HI. apply HI. eapply nth_error_In. exact Hi. }
  pose proof (process_pair_stamped k s processed Hs) as Ht.
  pose proof (replace_nth_Forall stamped i _ insts Ht HI) as Hr.
  destruct (control (process_pair ctx fuel topic_name listener_match_only_one
                                  k s processed)); simpl; auto.
Qed.

Lemma process_event_helper_stamped (mappings : list Mapping)
      (insts : Instances) (processed : bool) :
  Forall stamped insts ->
  Forall stamped
         (fst (fst (process_event_helper ctx fuel topic_name
                                         listener_match_only_one
                                         mappings insts processed))).
Proof.
  revert insts processed.
  induction mappings as [|[|pairs] mappings IH]; intros insts processed HI; simpl;
    [exact HI | apply IH; exact HI |].
  pose proof (process_pairs_stamped pairs insts processed HI) as Hp.
  destruct (process_pairs ctx fuel topic_name listener_match_only_one
                          pairs insts processed) as [[insts' processed'] c].
  simpl in Hp. destruct c; simpl; auto.
Qed.

End DispatchStamped.




(** ** C9: a composite is completed once *)

Lemma completions_emit (k : UUID) (e : Event) (s : State) :
  completions k (trace (emit e s))
  = (completions k (trace s) + if is_completion k e then 1 else 0)%nat.
Proof.
  unfold completions, emit. simpl. rewrite filter_app, length_app. simpl.
  destruct (is_completion k e); reflexivity.
Qed.

Lemma same_shapes_refl (s : State) : same_shapes s s.
Proof. intro k. reflexivity. Qed.

Lemma same_shapes_trans (a b c : State) :
  same_shapes a b -> same_shapes b c -> same_shapes a c.
Proof. intros H1 H2 k. rewrite H2. apply H1. Qed.

Lemma same_shapes_lookup (a b : State) (k : UUID) (t : ITask) :
  same_shapes a b -> lookup k b = Some t ->
  exists t0, lookup k a = Some t0 /\ shape t0 = shape t.
Proof.
  intros H Hk. specialize (H k). rewrite Hk in H.
  destruct (lookup k a) as [t0|]; cbn [option_map] in H; [|discriminate].
  exists t0. split; [reflexivity | congruence].
Qed.

Lemma same_shapes_emit (e : Event) (s : State) : same_shapes s (emit e s).
Proof. intro k. reflexivity. Qed.

Lemma same_shapes_modify (k : UUID) (f : ITask -> ITask) (s : State) :
  (forall t, lookup k s = Some t -> shape (f t) = shape t) ->
  same_shapes s (modify k f s).
Proof.
  intros Hf n. rewrite lookup_modify.
  - destruct (Nat.eqb n k) eqn:E; [|reflexivity].
    apply Nat.eqb_eq in E. subst n.
    destruct (lookup k s) as [t|] eqn:Hk; simpl; [|reflexivity].
    rewrite (Hf t eq_refl). reflexivity.
  - intros t Ht. specialize (Hf t Ht). unfold shape in Hf. congruence.
Qed.

Lemma same_shapes_mark_complete (ctx : Context) (k : UUID)
      (st : TaskStatusEnum) (s : State) :
  same_shapes s (mark_complete ctx k st s).
Proof.
  unfold mark_complete. destruct (lookup k s) as [t|] eqn:Hk;
    [|apply same_shapes_refl].
  destruct (status_eqb (status t) st); [apply same_shapes_refl|].
  apply same_shapes_modify. reflexivity.
Qed.

Lemma cascade_avoids_shapes (ctx : Context) (s s' : State) (P : UUID)
      (started reached : UUID -> Prop) :
  same_shapes s s' -> cascade_avoids ctx s P started reached -> cascade_avoids ctx s' P started reached.
Proof.
  intros Hs [H1 H2 H3 H4 H5 H6 H7 H8 H9 H10].
  assert (T : forall k t, lookup k s' = Some t ->
                          exists t0, lookup k s = Some t0 /\ shape t0 = shape t)
    by (intros k t; apply same_shapes_lookup; exact Hs).
  constructor; try assumption.
  - intros t n Ht Hn. destruct (T _ _ Ht) as [t0 [Ht0 E]].
    apply (H3 t0 n Ht0). unfold shape in E. inversion E. congruence.
  - intros t p Ht Hp. destruct (T _ _ Ht) as [t0 [Ht0 E]].
    apply (H4 t0 p Ht0). unfold shape in E. inversion E. congruence.
  - intros k t n Hk Ht Hn. destruct (T _ _ Ht) as [t0 [Ht0 E]].
    apply (H5 k t0 n Hk Ht0). unfold shape in E. inversion E. congruence.
  - intros k t p Hk Ht Hp. destruct (T _ _ Ht) as [t0 [Ht0 E]].
    apply (H6 k t0 p Hk Ht0). unfold shape in E. inversion E. congruence.
  - intros k t r Hk Ht Hr. destruct (T _ _ Ht) as [t0 [Ht0 E]].
    apply (H7 k t0 r Hk Ht0). unfold shape in E. inversion E. congruence.
  - intros k t c Hk Ht Hc. destruct (T _ _ Ht) as [t0 [Ht0 E]].
    apply (H8 k t0 c Hk Ht0). unfold shape in E. inversion E. congruence.
Qed.

Lemma frame_emit (P : UUID) (ref s : State) (e : Event) :
  is_completion P e = false -> frame P ref s -> frame P ref (emit e s).
Proof.
  intros He [H1 [H2 H3]]. split; [exact H1|]. split; [exact H2|].
  rewrite completions_emit, He, H3. apply Nat.add_0_r.
Qed.

Lemma frame_modify (P k : UUID) (f : ITask -> ITask) (ref s : State) :
  k <> P -> (forall t, lookup k s = Some t -> shape (f t) = shape t) ->
  frame P ref s -> frame P ref (modify k f s).
Proof.
  intros Hne Hf [H1 [H2 H3]]. split; [|split].
  - rewrite lookup_modify.
    + assert (E : Nat.eqb P k = false) by (apply Nat.eqb_neq; congruence).
      rewrite E. exact H1.
    + intros t Ht. specialize (Hf t Ht). unfold shape in Hf. congruence.
  - apply (same_shapes_trans ref s); [exact H2|].
    apply same_shapes_modify. exact Hf.
  - exact H3.
Qed.

Lemma frame_mark_complete (ctx : Context) (P k : UUID) (st : TaskStatusEnum)
      (ref s : State) :
  k <> P -> frame P ref s -> frame P ref (mark_complete ctx k st s).
Proof.
  intros Hne HI. unfold mark_complete.
  destruct (lookup k s) as [t|]; [|exact HI].
  destruct (status_eqb (status t) st); [exact HI|].
  apply frame_modify; [exact Hne | reflexivity | exact HI].
Qed.

Lemma frame_call_execute (ctx : Context) (P k : UUID) (ref s : State) :
  k <> P -> (forall t rp, shape (fst (execute ctx t rp)) = shape t) ->
  frame P ref s -> frame P ref (call_execute ctx k s).
Proof.
  intros Hne Hex HI. unfold call_execute.
  destruct (lookup k s) as [t|] eqn:Hk; [|exact HI].
  pose proof (Hex t (runtime_parameters (instance s))) as Hs.
  destruct (execute ctx t (runtime_parameters (instance s))) as [t' rp'].
  simpl in Hs.
  assert (H : frame P ref (modify k (fun _ => t') (emit (EExecute k) s))).
  { apply frame_modify; [exact Hne | | apply frame_emit; [reflexivity | exact HI]].
    intros t0 H0. rewrite lookup_emit, Hk in H0. inversion H0; subst t0.
    exact Hs. }
  exact H.
Qed.

(** A cascade that avoids [P] keeps the frame of [P]. *)
Lemma cascade_frame (ctx : Context) (P : UUID) (started reached : UUID -> Prop)
      (ref : State) (fuel : nat) (c : Call) (s : State) :
  cascade_avoids ctx ref P started reached -> in_reach started reached c -> frame P ref s ->
  frame P ref (snd (run ctx fuel c s)).
Proof.
  intros HA.
  assert (Hne : forall k, reached k -> k <> P)
    by (intros k Hk E; subst k; exact (avoid_self _ _ _ _ _ HA Hk)).
  assert (HneS : forall k, started k -> k <> P)
    by (intros k Hk; apply Hne, (avoid_subset _ _ _ _ _ HA), Hk).
  assert (T : forall s0 k t, frame P ref s0 -> lookup k s0 = Some t ->
                             exists t0, lookup k ref = Some t0 /\ shape t0 = shape t).
  { intros s0 k t [_ [H2 _]] Hk. exact (same_shapes_lookup ref s0 k t H2 Hk). }
  assert (Hc : forall k, k <> P -> forall st it,
                 is_completion P (EOnComplete k st it) = false)
    by (intros k Hk st it; simpl; apply Nat.eqb_neq; exact Hk).
  apply (run_keeps ctx (frame P ref) (in_reach started reached)); simpl.
  - intros k s0 _ HI. apply frame_emit; [reflexivity | exact HI].
  - intros k st it s0 Hk HI. apply frame_emit; [|exact HI]. apply Hc, Hne, Hk.
  - intros k st s0 _ HI. apply frame_emit; [reflexivity | exact HI].
  - intros k s0 _ HI. apply frame_emit; [reflexivity | exact HI].
  - intros k s0 Hk HI. apply frame_modify; [apply HneS, Hk | reflexivity | exact HI].
  - intros k s0 Hk HI.
    apply frame_call_execute; [apply HneS, Hk | | exact HI].
    exact (avoid_execute _ _ _ _ _ HA).
  - intros k st it s0 Hk HI. apply frame_mark_complete; [apply Hne, Hk | exact HI].
  - intros k st t p s0 Hk HI Hl _ Hp.
    apply frame_modify; [| reflexivity | exact HI].
    destruct (T s0 k t HI Hl) as [t0 [Ht0 E]].
    apply Hne. apply (avoid_parent _ _ _ _ _ HA k t0 p Hk Ht0).
    unfold shape in E. inversion E. congruence.
  - intros k st Hk _. exact (avoid_subset _ _ _ _ _ HA k Hk).
  - intros k st it Hk. exact Hk.
  - intros k st t n s0 Hk HI Hl Hn.
    destruct (T s0 k t HI Hl) as [t0 [Ht0 E]].
    apply (avoid_next _ _ _ _ _ HA k t0 n Hk Ht0).
    unfold shape in E. inversion E. congruence.
  - intros k st t p s0 Hk HI Hl Hp.
    destruct (T s0 k t HI Hl) as [t0 [Ht0 E]].
    apply (avoid_parent _ _ _ _ _ HA k t0 p Hk Ht0).
    unfold shape in E. inversion E. congruence.
  - intros k st Hk. exact Hk.
  - intros k t r s0 Hk HI Hl Hr.
    destruct (T s0 k t HI Hl) as [t0 [Ht0 E]].
    apply (avoid_root_dag _ _ _ _ _ HA k t0 r Hk Ht0).
    unfold shape in E. inversion E. congruence.
  - intros k t c0 s0 Hk HI Hl Hc0.
    destruct (T s0 k t HI Hl) as [t0 [Ht0 E]].
    apply (avoid_children _ _ _ _ _ HA k t0 c0 Hk Ht0).
    unfold shape in E. inversion E. congruence.
  - intros k st task m _ Hm. exact (avoid_monitor _ _ _ _ _ HA task m Hm).
Qed.

Lemma trace_mark_complete (ctx : Context) (k : UUID) (st : TaskStatusEnum)
      (s : State) :
  trace (mark_complete ctx k st s) = trace s.
Proof.
  unfold mark_complete. destruct (lookup k s) as [t|]; [|reflexivity].
  destruct (status_eqb (status t) st); reflexivity.
Qed.

Section CompletedOnce.

Variable ctx : Context.
Variable P : UUID.
Variable started reached : UUID -> Prop.
Variable st : TaskStatusEnum.

(** One [on_complete(status)] on [P]: either the call did not get as far as
    entering the method, or it was entered once, [P] has the status, and the
    cascade has not touched [P] since. *)
Lemma on_complete_once (fuel : nat) (s : State) (t : ITask) :
  lookup P s = Some t -> cls t <> TriggerTask -> cascade_avoids ctx s P started reached ->
  let r := run ctx fuel (COnComplete P st true) s in
  same_shapes s (snd r)
  /\ ((fst r = OutOfFuel /\ snd r = s)
      \/ (completions P (trace (snd r)) = S (completions P (trace s))
          /\ option_map status (lookup P (snd r)) = Some st)).
Proof.
  intros Hk Hc HA. destruct fuel as [|fuel]; simpl.
  - split; [apply same_shapes_refl | left; split; reflexivity].
  - rewrite Hk.
    replace (match cls t with
             | TriggerTask =>
                 TriggerTask_on_complete ctx (run ctx fuel) P st true
                   (emit (EOnComplete P st true) s)
             | _ => ITask_on_complete ctx (run ctx fuel) P st true
                      (emit (EOnComplete P st true) s)
             end)
      with (ITask_on_complete ctx (run ctx fuel) P st true
              (emit (EOnComplete P st true) s))
      by (destruct (cls t); try reflexivity; contradiction).
    unfold ITask_on_complete. simpl negb. cbv iota.
    set (s1 := mark_complete ctx P st (emit (EOnComplete P st true) s)).
    assert (Hs1 : same_shapes s s1).
    { apply (same_shapes_trans s (emit (EOnComplete P st true) s));
        [apply same_shapes_emit | apply same_shapes_mark_complete]. }
    assert (HA1 : cascade_avoids ctx s1 P started reached)
      by (apply (cascade_avoids_shapes ctx s); assumption).
    assert (Hn1 : completions P (trace s1) = S (completions P (trace s))).
    { unfold s1. rewrite trace_mark_complete, completions_emit. simpl.
      rewrite Nat.eqb_refl. apply Nat.add_1_r. }
    assert (Hf1 : frame P s1 s1)
      by (split; [reflexivity | split; [apply same_shapes_refl | reflexivity]]).
    destruct (lookup P s1) as [t1|] eqn:Hk1.
    2:{ split; [exact Hs1 | right; split; [exact Hn1|]].
        exfalso. unfold s1 in Hk1. rewrite lookup_mark_complete in Hk1.
        rewrite Nat.eqb_refl, lookup_emit, Hk in Hk1. discriminate. }
    assert (Hst1 : status t1 = st) by (exact (mark_complete_status ctx P st _ t1 Hk1)).
    assert (Hdone : forall s2, frame P s1 s2 ->
              same_shapes s s2
              /\ ((False /\ s2 = s)
                  \/ (completions P (trace s2) = S (completions P (trace s))
                      /\ option_map status (lookup P s2) = Some st))).
    { intros s2 [F1 [F2 F3]]. split.
      - apply (same_shapes_trans s s1); assumption.
      - right. split; [congruence|]. rewrite F1. change (lookup P s1 = Some t1) in Hk1.
        rewrite Hk1. simpl. congruence. }
    assert (Hfin : forall r : Result, frame P s1 (snd r) ->
              same_shapes s (snd r)
              /\ ((fst r = OutOfFuel /\ snd r = s)
                  \/ (completions P (trace (snd r))
                      = S (completions P (trace s))
                      /\ option_map status (lookup P (snd r)) = Some st))).
    { intros r Hr. destruct (Hdone (snd r) Hr) as [Ha [[[] _] | Hb]].
      split; [exact Ha | right; exact Hb]. }
    destruct (next_to_start (instance s1) (next_dags t1) false)
      as [n | submitted] eqn:Hn.
    + apply Hfin. apply (cascade_frame ctx P started reached s1); [exact HA1 | | exact Hf1].
      simpl. apply (avoid_first_next _ _ _ _ _ HA1 t1 n Hk1).
      exact (next_to_start_in _ _ _ _ Hn).
    + assert (Hroot : frame P s1
                (snd (if type_eqb (task_type t1) ROOT
                      then root_cleanup ctx (run ctx fuel)
                             (map fst (tasks (instance s1))) s1
                      else (Returned, s1)))).
      { destruct (type_eqb (task_type t1) ROOT); [|exact Hf1].
        apply (root_cleanup_keeps ctx (frame P s1) (in_reach started reached) (run ctx fuel)).
        - intros c s0. apply cascade_frame. exact HA1.
        - intros task m Hm. simpl. exact (avoid_monitor _ _ _ _ _ HA1 task m Hm).
        - exact Hf1. }
      destruct submitted; [apply Hfin; exact Hroot|].
      destruct (parent_id t1) as [p|] eqn:Hp; [|apply Hfin; exact Hroot].
      destruct (lookup p s1) eqn:Hps; [|apply Hfin; exact Hf1].
      apply Hfin.
      assert (HCp : reached p) by exact (avoid_first_parent _ _ _ _ _ HA1 t1 p Hk1 Hp).
      apply (cascade_frame ctx P started reached s1); [exact HA1 | exact HCp |].
      apply frame_modify; [| reflexivity | exact Hf1].
      intro E. subst p. exact (avoid_self _ _ _ _ _ HA1 HCp).
Qed.

(** One [notify(status)] on the composite [P]. *)
Lemma notify_once (fuel : nat) (s : State) (t : ITask) :
  lookup P s = Some t -> cls t = ParallelCompositeTask ->
  cascade_avoids ctx s P started reached ->
  let s' := snd (notify ctx fuel P st s) in
  same_shapes s s'
  /\ ((completions P (trace s') = completions P (trace s)
       /\ instance s' = instance s
       /\ (fst (notify ctx fuel P st s) = OutOfFuel \/ status t = st
           \/ join_satisfied t (instance s) = false))
      \/ (status t <> st
          /\ completions P (trace s') = S (completions P (trace s))
          /\ option_map status (lookup P s') = Some st)).
Proof.
  intros Hk Hc HA. unfold notify. destruct fuel as [|fuel]; simpl.
  - split; [apply same_shapes_refl | left; split; [|split; [|left]]; reflexivity].
  - rewrite Hk, Hc. unfold ParallelCompositeTask_notify. rewrite lookup_emit, Hk.
    assert (Hq : same_shapes s (emit (ENotify P st) s) /\
                 (completions P (trace (emit (ENotify P st) s))
                  = completions P (trace s)
                  /\ instance (emit (ENotify P st) s) = instance s)).
    { split; [apply same_shapes_emit|]. split; [|reflexivity].
      rewrite completions_emit. simpl. apply Nat.add_0_r. }
    destruct (status_eqb (status t) st) eqn:Es.
    + simpl. split; [apply Hq | left]. split; [apply Hq|]. split; [apply Hq|].
      right. left. apply status_eqb_eq. exact Es.
    + destruct (join_satisfied t (instance (emit (ENotify P st) s))) eqn:Ej.
      2:{ simpl. split; [apply Hq | left]. split; [apply Hq|]. split; [apply Hq|].
          right. right. exact Ej. }
      assert (HA0 : cascade_avoids ctx (emit (ENotify P st) s) P started reached)
        by (apply (cascade_avoids_shapes ctx s); [apply same_shapes_emit | exact HA]).
      assert (Hc' : cls t <> TriggerTask) by (rewrite Hc; discriminate).
      destruct (on_complete_once fuel (emit (ENotify P st) s) t Hk Hc' HA0)
        as [Hsh [[Hout Hsame] | [Hn Hs]]].
      * rewrite Hsame. split; [apply Hq | left]. split; [apply Hq|].
        split; [apply Hq|]. left. exact Hout.
      * split.
        -- apply (same_shapes_trans s (emit (ENotify P st) s));
             [apply same_shapes_emit | exact Hsh].
        -- right. split; [apply status_eqb_neq; exact Es|].
           split; [|exact Hs]. rewrite Hn. f_equal. apply Hq.
Qed.

(** Once [P] has the status, [notify(status)] returns at its guard. *)
Lemma notify_guarded (fuel : nat) (s : State) (t : ITask) :
  lookup P s = Some t -> cls t = ParallelCompositeTask -> status t = st ->
  notify ctx (S fuel) P st s = (Returned, emit (ENotify P st) s).
Proof.
  intros Hk Hc Hs. unfold notify. simpl. rewrite Hk, Hc.
  unfold ParallelCompositeTask_notify. rewrite lookup_emit, Hk, Hs.
  rewrite status_eqb_refl. reflexivity.
Qed.

Lemma repeat_guarded (fuels : list nat) (s : State) (t : ITask) :
  lookup P s = Some t -> cls t = ParallelCompositeTask -> status t = st ->
  instance (notify_repeatedly ctx fuels P st s) = instance s
  /\ completions P (trace (notify_repeatedly ctx fuels P st s))
     = completions P (trace s).
Proof.
  revert s. induction fuels as [|fuel fuels IH]; intros s Hk Hc Hs; simpl.
  - split; reflexivity.
  - destruct fuel as [|fuel].
    + apply IH; assumption.
    + rewrite (notify_guarded fuel s t Hk Hc Hs). simpl.
      destruct (IH (emit (ENotify P st) s) Hk Hc Hs) as [H1 H2].
      rewrite H1, H2. split; [reflexivity|].
      rewrite completions_emit. simpl. apply Nat.add_0_r.
Qed.

Lemma repeat_bound (fuels : list nat) (s : State) (t : ITask) :
  lookup P s = Some t -> cls t = ParallelCompositeTask ->
  cascade_avoids ctx s P started reached ->
  (completions P (trace (notify_repeatedly ctx fuels P st s))
   <= S (completions P (trace s)))%nat.
Proof.
  revert s t. induction fuels as [|fuel fuels IH]; intros s t Hk Hc HA; simpl.
  - apply Nat.le_succ_diag_r.
  - destruct (notify_once fuel s t Hk Hc HA) as [Hsh Hcases].
    set (s' := snd (notify ctx fuel P st s)) in *.
    assert (Hk' : exists t', lookup P s' = Some t' /\ cls t' = ParallelCompositeTask).
    { pose proof (Hsh P) as E. rewrite Hk in E.
      destruct (lookup P s') as [t'|]; cbn [option_map] in E; [|discriminate].
      exists t'. split; [reflexivity|]. unfold shape in E. congruence. }
    destruct Hk' as [t' [Hk' Hc']].
    destruct Hcases as [[Hn _] | [_ [Hn Hs]]].
    + rewrite <- Hn. apply (IH s' t' Hk' Hc').
      apply (cascade_avoids_shapes ctx s); assumption.
    + assert (Hst : status t' = st)
        by (rewrite Hk' in Hs; simpl in Hs; congruence).
      destruct (repeat_guarded fuels s' t' Hk' Hc' Hst) as [_ H2].
      rewrite H2, Hn. apply Nat.le_refl.
Qed.

End CompletedOnce.


(** The closure of the cascade in [composite]: completing the composite 1
    starts its successor 4 and then completes 4 and the root 0. *)
Lemma composite_cascade_avoids (c2 c3 : TaskStatusEnum) (op : TaskOperator) :
  cascade_avoids (Examples.quiet None true)
                 (Examples.fresh (Examples.composite EXECUTING c2 c3 op)) 1
                 (fun k => k = 4%nat) (fun k => k = 4%nat \/ k = 0%nat).
Proof.
  constructor.
  - intros k Hk. left. exact Hk.
  - intros [H | H]; discriminate H.
  - intros t n Ht Hn. inversion Ht; subst t. simpl in Hn.
    destruct Hn as [Hn | []]. symmetry. exact Hn.
  - intros t p Ht Hp. inversion Ht; subst t. simpl in Hp.
    inversion Hp. right. reflexivity.
  - intros k t n [Hk | Hk] Ht Hn; subst k; inversion Ht; subst t;
      simpl in Hn; contradiction.
  - intros k t p [Hk | Hk] Ht Hp; subst k; inversion Ht; subst t;
      simpl in Hp; inversion Hp. right. reflexivity.
  - intros k t r Hk Ht Hr. subst k. inversion Ht; subst t. discriminate Hr.
  - intros k t c Hk Ht Hc. subst k. inversion Ht; subst t. simpl in Hc.
    contradiction.
  - intros task m Hm. discriminate Hm.
  - intros t rp. reflexivity.
Defined.



(** Where the cascade does come back, one call is enough: the successor 4 of
    the composite 1 names 1 as its parent, so [notify(FAILURE)] completes 1
    with FAILURE, starts 4, and the completion of 4 notifies 1 with
    COMPLETED, which completes 1 a second time. *)
Lemma cascade_back_completes_again :
  let r := notify (Examples.quiet None true) 30 1 FAILURE
                  (Examples.fresh Examples.successor_under_composite) in
  fst r = Returned
  /\ completions 1 (trace (snd r)) = 2%nat
  /\ option_map status (lookup 1 (snd r)) = Some COMPLETED.
Proof. vm_compute. repeat split. Qed.

(** ** [add_task] and [get_task] *)

Lemma dict_get_set (k n : UUID) (t : ITask) (d : list (UUID * ITask)) :
  dict_get n (dict_set k t d) = if Nat.eqb n k then Some t else dict_get n d.
Proof.
  induction d as [|[k' t'] d IH]; simpl.
  - destruct (Nat.eqb n k); reflexivity.
  - destruct (Nat.eqb k k') eqn:Ek; simpl.
    + apply Nat.eqb_eq in Ek. subst k'. destruct (Nat.eqb n k); reflexivity.
    + destruct (Nat.eqb n k') eqn:En; [|exact IH].
      apply Nat.eqb_eq in En. subst k'. rewrite Nat.eqb_sym in Ek.
      rewrite Ek. reflexivity.
Qed.

(** What [get_task] sees after [add_task(task)]: under the id of the task
    the task itself, unless that id is the id of the instance, in which case
    [get_task] goes on answering the instance and the added task stays out
    of reach; under every other id what it saw before. *)
Theorem add_task_get_task (task : ITask) (w : ITemplateDAGInstance) (n : UUID) :
  get_task n (add_task task w)
  = if Nat.eqb n (id (self w)) then Some (self w)
    else if Nat.eqb n (id task) then Some task
         else get_task n w.
Proof.
  unfold get_task, add_task. simpl.
  destruct (Nat.eqb n (id (self w))); [reflexivity|].
  apply dict_get_set.
Qed.

Lemma dict_set_keys (k : UUID) (t : ITask) (d : list (UUID * ITask)) :
  map fst (dict_set k t d)
  = if existsb (Nat.eqb k) (map fst d) then map fst d else map fst d ++ [k].
Proof.
  induction d as [|[k' t'] d IH]; simpl; [reflexivity|].
  destruct (Nat.eqb k k') eqn:Ek; simpl; [reflexivity|].
  rewrite IH. destruct (existsb (Nat.eqb k) (map fst d)); reflexivity.
Qed.

(** [add_task] keeps the dict a dict: the keys stay pairwise different.  A
    task whose id is already a key replaces the object stored under it,
    keys and order unchanged; a task with a new id is put last. *)
Theorem add_task_keys (task : ITask) (w : ITemplateDAGInstance) :
  NoDup (map fst (tasks w)) ->
  NoDup (map fst (tasks (add_task task w)))
  /\ (In (id task) (map fst (tasks w)) ->
      map fst (tasks (add_task task w)) = map fst (tasks w))
  /\ (~ In (id task) (map fst (tasks w)) ->
      map fst (tasks (add_task task w)) = map fst (tasks w) ++ [id task]).
Proof.
  intro Hnd. unfold add_task. simpl. rewrite dict_set_keys.
  destruct (existsb (Nat.eqb (id task)) (map fst (tasks w))) eqn:E.
  - apply existsb_exists in E. destruct E as [x [Hx Hex]].
    apply Nat.eqb_eq in Hex. subst x.
    split; [exact Hnd|]. split; [reflexivity | contradiction].
  - assert (Hnot : ~ In (id task) (map fst (tasks w))).
    { intro Hin.
      assert (Ht : existsb (Nat.eqb (id task)) (map fst (tasks w)) = true)
        by (apply existsb_exists; exists (id task); split;
            [exact Hin | apply Nat.eqb_refl]).
      congruence. }
    split; [|split; [contradiction | reflexivity]].
    apply NoDup_app; [exact Hnd | repeat constructor; intros [] | ].
    intros x Hx [Hx' | []]. subst x. contradiction.
Qed.

Lemma add_task_keys_witness :
  map fst (tasks (add_task (Examples.leaf ExecutorTask 3 None COMPLETED [])
                           Examples.decision))
  = [1; 2; 3]%nat
  /\ map fst (tasks (add_task (Examples.leaf ExecutorTask 9 None COMPLETED [])
                              Examples.decision))
     = [1; 2; 3; 9]%nat.
Proof.
  assert (Hnd : NoDup (map fst (tasks Examples.decision)))
    by (simpl; repeat constructor; simpl; intuition discriminate).
  split.
  - apply (proj1 (proj2 (add_task_keys
             (Examples.leaf ExecutorTask 3 None COMPLETED [])
             Examples.decision Hnd))).
    simpl. intuition.
  - apply (proj2 (proj2 (add_task_keys
             (Examples.leaf ExecutorTask 9 None COMPLETED [])
             Examples.decision Hnd))).
    simpl. intuition discriminate.
Defined.

(** ** [get_remaining_tasks] *)

Lemma last_is_snoc (w : ITemplateDAGInstance) (l : list UUID) (k e : UUID) :
  last_is w (l ++ [k]) e
  = match get_task k w with
    | Some t => Nat.eqb (id t) e
    | None => false
    end.
Proof. unfold last_is. rewrite rev_unit. reflexivity. Qed.

Lemma fold_remaining_None (f : option (list UUID) -> UUID -> option (list UUID))
      (l : list UUID) :
  (forall n, f None n = None) -> fold_left f l None = None.
Proof. intro H. induction l as [|n l IH]; simpl; [reflexivity|]. rewrite H. exact IH. Qed.

Lemma grows_refl (w : ITemplateDAGInstance) (e : UUID) (acc : list UUID) :
  grows w e acc acc.
Proof.
  exists []. rewrite app_nil_r. split; [reflexivity|]. split; [constructor|].
  intros [H | [k [t [[] _]]]]. exact H.
Qed.

Lemma grows_trans (w : ITemplateDAGInstance) (e : UUID) (a b c : list UUID) :
  grows w e a b -> grows w e b c -> grows w e a c.
Proof.
  intros [x [Hb [Hx Hlx]]] [y [Hc [Hy Hly]]]. exists (x ++ y).
  split; [subst; symmetry; apply app_assoc|]. split; [apply Forall_app; split; assumption|].
  intros [Ha | [k [t [Hin [Hk Hid]]]]].
  - apply Hly. left. apply Hlx. left. exact Ha.
  - apply in_app_or in Hin. destruct Hin as [Hin | Hin].
    + apply Hly. left. apply Hlx. right. exists k, t. auto.
    + apply Hly. right. exists k, t. auto.
Qed.

Lemma grows_snoc (w : ITemplateDAGInstance) (e : UUID) (acc : list UUID)
      (n : UUID) (t : ITask) :
  get_task n w = Some t ->
  (last_is w acc e = true -> id t = e) ->
  grows w e acc (acc ++ [n]).
Proof.
  intros Hn Hlast. exists [n]. split; [reflexivity|].
  split; [constructor; [congruence | constructor]|].
  intro H. rewrite last_is_snoc, Hn. apply Nat.eqb_eq.
  destruct H as [H | [k [t' [[Hk | []] [Hg Hid]]]]].
  - apply Hlast. exact H.
  - subst k. congruence.
Qed.

Lemma get_remaining_tasks_grows (fuel : nat) (w : ITemplateDAGInstance)
      (n : UUID) (acc : list UUID) (e : UUID) (r : list UUID) :
  get_remaining_tasks fuel w n acc e = Some r -> grows w e acc r.
Proof.
  revert n acc r. induction fuel as [|fuel IH]; intros n acc r; simpl;
    [discriminate|].
  destruct (get_task n w) as [t|] eqn:Hn.
  2:{ intro H. inversion H. apply grows_refl. }
  destruct (match root_dag t with
            | Some r0 => get_remaining_tasks fuel w r0 acc e
            | None => Some acc
            end) as [tasks1|] eqn:H1; [|discriminate].
  assert (G1 : grows w e acc tasks1).
  { destruct (root_dag t); [exact (IH _ _ _ H1)|].
    inversion H1. apply grows_refl. }
  destruct (Nat.eqb (id t) e) eqn:Eid.
  - intro H. inversion H. apply (grows_trans w e acc tasks1); [exact G1|].
    apply (grows_snoc w e tasks1 n t Hn). intros _. apply Nat.eqb_eq. exact Eid.
  - destruct (last_is w tasks1 e) eqn:El.
    + intro H. inversion H. subst r. exact G1.
    + assert (G2 : grows w e acc (tasks1 ++ [n])).
      { apply (grows_trans w e acc tasks1); [exact G1|].
        apply (grows_snoc w e tasks1 n t Hn). congruence. }
      generalize (tasks1 ++ [n]) G2. clear G2.
      induction (next_dags t) as [|m l IHl]; intros a Ga; simpl.
      * intro H. inversion H. subst r. exact Ga.
      * destruct (get_remaining_tasks fuel w m a e) as [a'|] eqn:Hm.
        -- apply IHl. apply (grows_trans w e acc a); [exact Ga|].
           exact (IH _ _ _ Hm).
        -- rewrite fold_remaining_None by reflexivity. discriminate.
Qed.

(** [get_remaining_tasks] only appends to the list it is given, every key
    it appends resolves in the workflow, and if it came across the end task
    (or the list already ended with it) the result ends with the end task:
    the [[:-1]] of the callers then cuts off the end task and nothing else. *)
Theorem get_remaining_tasks_appends (fuel : nat) (w : ITemplateDAGInstance)
        (n : UUID) (acc : list UUID) (e : UUID) (r : list UUID) :
  get_remaining_tasks fuel w n acc e = Some r ->
  exists ext,
    r = acc ++ ext
    /\ Forall (fun k => get_task k w <> None) ext
    /\ (last_is w acc e = true \/ visits w ext e -> last_is w r e = true).
Proof. apply get_remaining_tasks_grows. Qed.

Lemma get_remaining_tasks_appends_witness :
  exists ext,
    [1; 2; 3]%nat = [] ++ ext
    /\ Forall (fun k => get_task k Examples.decision <> None) ext
    /\ (last_is Examples.decision [] 3 = true
        \/ visits Examples.decision ext 3 ->
        last_is Examples.decision [1; 2; 3]%nat 3 = true).
Proof.
  apply (get_remaining_tasks_appends 5 Examples.decision 0 [] 3).
  reflexivity.
Defined.

Lemma get_remaining_tasks_linked (w : ITemplateDAGInstance) (pre : list UUID)
      (e : UUID) (acc : list UUID) (fuel : nat) :
  linked w pre e -> last_is w acc e = false ->
  (List.length pre < fuel)%nat ->
  get_remaining_tasks fuel w (hd e pre) acc e = Some (acc ++ pre ++ [e]).
Proof.
  revert acc fuel. induction pre as [|k pre IH]; intros acc fuel Hl Hacc Hf.
  - destruct fuel as [|fuel]; [inversion Hf|].
    destruct Hl as [t [Ht [Hid Hr]]]. simpl. rewrite Ht, Hr.
    rewrite Hid, Nat.eqb_refl. reflexivity.
  - destruct fuel as [|fuel]; [inversion Hf|].
    destruct Hl as [[t [Ht [Hid [Hne [Hr Hnx]]]]] Hl]. simpl hd.
    cbn [get_remaining_tasks]. rewrite Ht, Hr.
    assert (E : Nat.eqb (id t) e = false)
      by (apply Nat.eqb_neq; congruence).
    rewrite E, Hacc, Hnx. cbn [fold_left].
    rewrite (IH (acc ++ [k]) fuel Hl).
    + rewrite <- app_assoc. reflexivity.
    + rewrite last_is_snoc, Ht. exact E.
    + simpl in Hf. apply Nat.succ_lt_mono. exact Hf.
Qed.

(** On a chain of leaves [get_remaining_tasks], started at the head of the
    chain with a list that does not end with the end task, appends the chain
    up to and including the end task, whatever comes after it. *)
Theorem get_remaining_tasks_chain (w : ITemplateDAGInstance) (pre : list UUID)
        (e : UUID) (acc : list UUID) (fuel : nat) :
  linked w pre e -> last_is w acc e = false ->
  (List.length pre < fuel)%nat ->
  get_remaining_tasks fuel w (hd e pre) acc e = Some (acc ++ pre ++ [e]).
Proof. apply get_remaining_tasks_linked. Qed.

Lemma get_remaining_tasks_chain_witness :
  get_remaining_tasks 4 Scenarios.chain 1 [] 3 = Some [1; 2; 3]%nat.
Proof.
  apply (get_remaining_tasks_chain Scenarios.chain [1; 2]%nat 3%nat [] 4).
  - simpl. split; [|split].
    + eexists. split; [reflexivity|]. repeat split. discriminate.
    + eexists. split; [reflexivity|]. repeat split. discriminate.
    + eexists. split; [reflexivity|]. split; reflexivity.
  - reflexivity.
  - simpl. repeat constructor.
Defined.

(** ** Events that the dispatcher lets pass *)

Lemma replace_nth_same (i : nat) (s : State) (l : Instances) :
  nth_error l i = Some s -> replace_nth i s l = l.
Proof.
  revert i. induction l as [|x l IH]; intros [|i]; simpl; intro H;
    try discriminate.
  - inversion H. reflexivity.
  - rewrite (IH i H). reflexivity.
Qed.

Lemma process_pair_ignored (ctx : Context) (fuel : nat) (topic_name : string)
      (mo : bool) (k : UUID) (s : State) (processed : bool) :
  (forall t, lookup k s = Some t -> ignored topic_name t) ->
  process_pair ctx fuel topic_name mo k s processed = mkTurn s processed Continue.
Proof.
  intro H. unfold process_pair.
  destruct (lookup k s) as [t|] eqn:Hk; [|reflexivity].
  specialize (H t eq_refl).
  destruct (topic t) as [tp|] eqn:Htp; [|reflexivity].
  destruct (String.eqb tp EmptyString || negb (String.eqb tp topic_name)) eqn:Eb;
    [reflexivity|].
  apply orb_false_iff in Eb. destruct Eb as [E1 E2].
  apply negb_false_iff in E2. apply String.eqb_eq in E2.
  apply String.eqb_neq in E1.
  destruct H as [H | [H | [[tp' [H Hne]] | H]]]; try congruence.
  unfold deliver. rewrite Hk.
  destruct H as [[Hs Ha] | [Hs | [Hs | [Hs | [Hs Ha]]]]]; rewrite Hs;
    try rewrite Ha; reflexivity.
Qed.

(** An event that no task is ready for changes nothing: when every pair
    that the store yields names a workflow or a task that does not resolve,
    or a task that is [ignored], [process_event_helper] returns the
    instances as they were and leaves [processed_task] as it was. *)
Theorem process_event_helper_ignored (ctx : Context) (fuel : nat)
        (topic_name : string) (mo : bool) (mappings : list Mapping)
        (insts : Instances) (processed : bool) :
  (forall pairs i k s t,
      In (Yields pairs) mappings -> In (i, k) pairs ->
      nth_error insts i = Some s -> lookup k s = Some t ->
      ignored topic_name t) ->
  process_event_helper ctx fuel topic_name mo mappings insts processed
  = (insts, processed, Returned).
Proof.
  induction mappings as [|[|pairs] mappings IH]; intro H; simpl.
  - reflexivity.
  - apply IH. intros pairs i k s t Hin. apply H. right. exact Hin.
  - assert (Hp : process_pairs ctx fuel topic_name mo pairs insts processed
                 = (insts, processed, Continue)).
    { assert (Hl : forall i k s t, In (i, k) pairs ->
                     nth_error insts i = Some s -> lookup k s = Some t ->
                     ignored topic_name t)
        by (intros i k s t; apply H; left; reflexivity).
      clear H IH. induction pairs as [|[i k] pairs IHp]; simpl; [reflexivity|].
      assert (Hrest : process_pairs ctx fuel topic_name mo pairs insts processed
                      = (insts, processed, Continue)).
      { apply IHp. intros i' k' s t Hin. apply Hl. right. exact Hin. }
      destruct (nth_error insts i) as [s|] eqn:Hi; [|exact Hrest].
      rewrite process_pair_ignored.
      - simpl. rewrite (replace_nth_same i s insts Hi). exact Hrest.
      - intros t Ht. apply (Hl i k s t); [left; reflexivity | exact Hi | exact Ht]. }
    rewrite Hp. apply IH. intros pairs' i k s t Hin. apply H. right. exact Hin.
Qed.

Lemma process_event_helper_ignored_witness :
  process_event_helper (Examples.quiet None true) 5 "orders" true
    [Malformed; Yields [(0, 1); (0, 2); (5, 1); (0, 9)]%nat]
    [Examples.fresh (Examples.two_sensors NOT_STARTED FAILURE false)] false
  = ([Examples.fresh (Examples.two_sensors NOT_STARTED FAILURE false)],
     false, Returned).
Proof.
  apply process_event_helper_ignored.
  intros pairs i k s t [Hm | [Hm | []]] Hp Hi Hk; [discriminate Hm|].
  inversion Hm; subst pairs. clear Hm.
  destruct Hp as [Hp | [Hp | [Hp | [Hp | []]]]]; inversion Hp; subst i k;
    simpl in Hi; try discriminate Hi; inversion Hi; subst s;
    vm_compute in Hk; try discriminate Hk; inversion Hk; subst t.
  - right. right. right. left. split; reflexivity.
  - right. right. right. right. right. left. reflexivity.
Defined.

(** ** [allow_skip_to]: the tasks before the sensor *)

Lemma on_complete_no_iterate (ctx : Context) (fuel : nat) (x : UUID)
      (st : TaskStatusEnum) (s : State) (t : ITask) :
  lookup x s = Some t ->
  on_complete ctx (S fuel) x st false s
  = (Returned,
     mark_complete ctx x
       match cls t with TriggerTask => COMPLETED | _ => st end
       (emit (EOnComplete x st false) s)).
Proof.
  intro Hx. unfold on_complete. simpl. rewrite Hx.
  destruct (cls t); reflexivity.
Qed.

Lemma mark_complete_pending (ctx : Context) (x : UUID) (s : State) (t : ITask) :
  lookup x s = Some t -> pending t = true ->
  forall n,
    lookup n (mark_complete ctx x
                match cls t with TriggerTask => COMPLETED | _ => SKIPPED end s)
    = if Nat.eqb n x then Some (skipped_over ctx t) else lookup n s.
Proof.
  intros Hx Hp n. rewrite lookup_mark_complete, Hx. simpl.
  destruct (Nat.eqb n x); [|reflexivity].
  unfold skipped_over, pending in *.
  destruct (cls t), (status t); simpl in *; try discriminate; reflexivity.
Qed.

Lemma skipped_over_not_pending (ctx : Context) (t : ITask) :
  pending (skipped_over ctx t) = false.
Proof. unfold pending, skipped_over. destruct (cls t); reflexivity. Qed.

(** The loop over [previous_tasks[:-1]]: the pending tasks of the list are
    marked, nothing else is written, and the loop returns. *)
Lemma skip_previous_marks (ctx : Context) (fuel : nat) (l : list UUID)
      (s : State) :
  exists s2,
    skip_previous ctx (S fuel) l s = (Returned, s2)
    /\ forall n,
        lookup n s2
        = match lookup n s with
          | Some tn =>
              if existsb (Nat.eqb n) l && pending tn
              then Some (skipped_over ctx tn) else Some tn
          | None => None
          end.
Proof.
  revert s. induction l as [|x l IH]; intro s; cbn [skip_previous].
  - exists s. split; [reflexivity|]. intro n. simpl.
    destruct (lookup n s); reflexivity.
  - destruct (lookup x s) as [tx|] eqn:Hx.
    + fold (pending tx). destruct (pending tx) eqn:Hp.
      * rewrite (on_complete_no_iterate ctx fuel x SKIPPED s tx Hx).
        unfold andThen.
        destruct (IH (mark_complete ctx x
                        match cls tx with TriggerTask => COMPLETED | _ => SKIPPED end
                        (emit (EOnComplete x SKIPPED false) s)))
          as [s2 [Hrun Hl]].
        exists s2. split; [exact Hrun|]. intro n. rewrite Hl.
        rewrite (mark_complete_pending ctx x _ tx) by assumption.
        rewrite lookup_emit. cbn [existsb].
        destruct (Nat.eqb n x) eqn:En.
        -- apply Nat.eqb_eq in En. subst n. rewrite Hx, Hp.
           rewrite skipped_over_not_pending, andb_false_r. reflexivity.
        -- reflexivity.
      * destruct (IH s) as [s2 [Hrun Hl]]. exists s2. split; [exact Hrun|].
        intro n. rewrite Hl. cbn [existsb].
        destruct (Nat.eqb n x) eqn:En; [|reflexivity].
        apply Nat.eqb_eq in En. subst n. rewrite Hx, Hp.
        rewrite andb_false_r. reflexivity.
    + destruct (IH s) as [s2 [Hrun Hl]]. exists s2. split; [exact Hrun|].
      intro n. rewrite Hl. cbn [existsb].
      destruct (Nat.eqb n x) eqn:En; [|reflexivity].
      apply Nat.eqb_eq in En. subst n. rewrite Hx. reflexivity.
Qed.

Lemma linked_not_in (w : ITemplateDAGInstance) (pre : list UUID) (e : UUID) :
  linked w pre e -> ~ In e pre.
Proof.
  induction pre as [|k pre IH]; simpl; [intros _ []|].
  intros [[t [_ [_ [Hne _]]]] Hl] [Hk | Hin]; [congruence|].
  exact (IH Hl Hin).
Qed.

Lemma existsb_eqb_in (n : UUID) (l : list UUID) :
  existsb (Nat.eqb n) l = true <-> In n l.
Proof.
  rewrite existsb_exists. split.
  - intros [x [Hx E]]. apply Nat.eqb_eq in E. subst x. exact Hx.
  - intro H. exists n. split; [exact H | apply Nat.eqb_refl].
Qed.

(** An event for a sensor that waits to be started with [allow_skip_to], at
    the end of a chain of leaves that begins at the [root_dag] of the
    workflow: the sensor is set EXECUTING, every pending task of the chain
    before it is marked SKIPPED (a trigger task COMPLETED) with a completion
    time, no other task is written, and the event is then delivered as to
    an EXECUTING sensor. *)
Theorem allow_skip_to_chain (ctx : Context) (fuel : nat) (topic_name : string)
        (mo : bool) (k : UUID) (s : State) (t : ITask) (pre : list UUID)
        (processed : bool) :
  lookup k s = Some t -> topic t = Some topic_name ->
  topic_name <> EmptyString ->
  status t = NOT_STARTED -> allow_skip_to t = true ->
  root_dag (self (instance s)) = Some (hd k pre) ->
  linked (instance s) pre k -> (List.length pre < fuel)%nat ->
  exists s2,
    process_pair ctx fuel topic_name mo k s processed
    = deliver ctx fuel mo k s2 true
    /\ lookup k s2 = Some (mark_executing (now ctx) t)
    /\ (forall n tn, In n pre -> lookup n s = Some tn ->
                     lookup n s2
                     = Some (if pending tn then skipped_over ctx tn else tn))
    /\ (forall n, n <> k -> ~ In n pre -> lookup n s2 = lookup n s).
Proof.
  intros Hk Htp Hne Hst Hallow Hroot Hl Hfuel.
  assert (Hidk : id t = k).
  { clear - Hl Hk. induction pre as [|x pre IH]; simpl in Hl.
    - destruct Hl as [t' [Ht' [Hid _]]]. unfold lookup in Hk. congruence.
    - apply IH. apply Hl. }
  pose proof (linked_not_in _ _ _ Hl) as Hnotin.
  destruct fuel as [|fuel]; [inversion Hfuel|].
  destruct (skip_previous_marks ctx fuel pre
              (modify k (mark_executing (now ctx)) s)) as [s2 [Hrun Hlook]].
  assert (Hlook1 : forall n, lookup n (modify k (mark_executing (now ctx)) s)
                             = if Nat.eqb n k then Some (mark_executing (now ctx) t)
                               else lookup n s).
  { intro n. rewrite lookup_modify by reflexivity. rewrite Hk. reflexivity. }
  exists s2. split; [|split; [|split]].
  - unfold process_pair. rewrite Hk, Htp, String.eqb_refl.
    assert (He : String.eqb topic_name EmptyString = false)
      by (apply String.eqb_neq; exact Hne).
    rewrite He, Hst, Hallow. simpl orb. simpl andb. cbv iota.
    rewrite Hroot, Hidk.
    rewrite (get_remaining_tasks_linked (instance s) pre k [] (S fuel) Hl eq_refl Hfuel).
    simpl app. rewrite removelast_last, Hrun. reflexivity.
  - rewrite Hlook, Hlook1, Nat.eqb_refl.
    assert (E : existsb (Nat.eqb k) pre = false).
    { destruct (existsb (Nat.eqb k) pre) eqn:E; [|reflexivity].
      apply existsb_eqb_in in E. contradiction. }
    rewrite E. reflexivity.
  - intros n tn Hin Hn. rewrite Hlook, Hlook1.
    assert (En : Nat.eqb n k = false)
      by (apply Nat.eqb_neq; intro; subst n; contradiction).
    rewrite En, Hn.
    assert (E : existsb (Nat.eqb n) pre = true) by (apply existsb_eqb_in; exact Hin).
    rewrite E. simpl. destruct (pending tn); reflexivity.
  - intros n Hnk Hnin. rewrite Hlook, Hlook1.
    assert (En : Nat.eqb n k = false) by (apply Nat.eqb_neq; exact Hnk).
    rewrite En.
    assert (E : existsb (Nat.eqb n) pre = false).
    { destruct (existsb (Nat.eqb n) pre) eqn:E; [|reflexivity].
      apply existsb_eqb_in in E. contradiction. }
    rewrite E. simpl. destruct (lookup n s); reflexivity.
Qed.

Lemma allow_skip_to_chain_witness :
  exists s2,
    process_pair (Examples.quiet None true) 5 "orders" false 3
                 (Examples.fresh Scenarios.chain) false
    = deliver (Examples.quiet None true) 5 false 3 s2 true
    /\ option_map status (lookup 3 s2) = Some EXECUTING
    /\ option_map status (lookup 1 s2) = Some SKIPPED
    /\ option_map status (lookup 2 s2) = Some SKIPPED
    /\ option_map status (lookup 4 s2) = Some NOT_STARTED.
Proof.
  destruct (allow_skip_to_chain (Examples.quiet None true) 5 "orders" false 3
              (Examples.fresh Scenarios.chain) _ [1; 2]%nat false
              eq_refl eq_refl) as [s2 [H1 [H2 [H3 H4]]]].
  - discriminate.
  - reflexivity.
  - reflexivity.
  - reflexivity.
  - simpl. split; [|split].
    + eexists. split; [reflexivity|]. repeat split. discriminate.
    + eexists. split; [reflexivity|]. repeat split. discriminate.
    + eexists. split; [reflexivity|]. split; reflexivity.
  - simpl. repeat constructor.
  - exists s2. split; [exact H1|]. split; [rewrite H2; reflexivity|].
    split; [|split].
    + rewrite (H3 1%nat _ (or_introl eq_refl) eq_refl). reflexivity.
    + rewrite (H3 2%nat _ (or_intror (or_introl eq_refl)) eq_refl). reflexivity.
    + rewrite (H4 4%nat); [reflexivity | discriminate |].
      simpl. intuition discriminate.
Defined.

(** ** When [DecisionTask.start] gets through *)

(** [DecisionTask.start] on a task in NOT_STARTED goes on to [on_complete]
    exactly when every listed successor is the id that [evaluate] chose.  In
    every other case it raises [AttributeError] after setting the task
    EXECUTING, without marking any successor: so it does whenever two
    different successors are listed, and, with the [evaluate] of the base
    class, whenever the draw is 0 and a successor is listed. *)
Theorem DecisionTask_start_outcome (ctx : Context) (fuel : nat) (k : UUID)
        (s : State) (t : ITask) :
  lookup k s = Some t -> cls t = DecisionTask -> status t = NOT_STARTED ->
  let choice := evaluate ctx (mark_executing (now ctx) t)
                         (runtime_parameters (instance s)) in
  let s1 := emit (EEvaluate k)
                 (modify k (mark_executing (now ctx)) (emit (EStart k) s)) in
  ((forall n, In n (next_dags t) -> choice = Some n) ->
   start ctx (S fuel) k s = on_complete ctx fuel k COMPLETED true s1)
  /\ ((exists n, In n (next_dags t) /\ choice <> Some n) ->
      start ctx (S fuel) k s = (Raised AttributeError, s1))
  /\ ((exists a b, In a (next_dags t) /\ In b (next_dags t) /\ a <> b) ->
      start ctx (S fuel) k s = (Raised AttributeError, s1))
  /\ (choice = DecisionTask_evaluate 0 (mark_executing (now ctx) t) ->
      next_dags t <> [] ->
      start ctx (S fuel) k s = (Raised AttributeError, s1)).
Proof.
  intros Hk Hc Hs choice s1.
  assert (Hraise : (exists n, In n (next_dags t) /\ choice <> Some n) ->
                   start ctx (S fuel) k s = (Raised AttributeError, s1))
    by (intro H; apply (DecisionTask_start_raises ctx fuel k s t Hk Hc Hs H)).
  split; [|split; [exact Hraise | split]].
  - intro Hall. unfold start, on_complete. simpl. rewrite Hk, Hc.
    unfold DecisionTask_start. rewrite lookup_emit, Hk, Hs. simpl.
    fold choice. rewrite (skip_others_only_choice choice (next_dags t) _ Hall).
    reflexivity.
  - intros [a [b [Ha [Hb Hab]]]]. apply Hraise.
    destruct (Nat.eq_dec a b) as [E|_]; [contradiction|].
    destruct choice as [c|].
    + destruct (Nat.eq_dec c a) as [E|E].
      * exists b. split; [exact Hb|]. intro H. inversion H. congruence.
      * exists a. split; [exact Ha|]. intro H. inversion H. congruence.
    + exists a. split; [exact Ha | discriminate].
  - intros Hbase Hne. apply Hraise.
    destruct (next_dags t) as [|n l] eqn:Hn; [contradiction|].
    exists n. split; [left; reflexivity|]. rewrite Hbase.
    unfold DecisionTask_evaluate. simpl. discriminate.
Qed.

Lemma DecisionTask_start_outcome_witness :
  start (Examples.quiet (Some 3%nat) true) 6 1
        (Examples.fresh Examples.decision)
  = (Raised AttributeError,
     emit (EEvaluate 1)
          (modify 1 (mark_executing 100)
                  (emit (EStart 1) (Examples.fresh Examples.decision)))).
Proof.
  refine (proj1 (proj2 (proj2 (DecisionTask_start_outcome
            (Examples.quiet (Some 3%nat) true) 5 1
            (Examples.fresh Examples.decision) _ eq_refl eq_refl eq_refl))) _).
  exists 2%nat, 3%nat. simpl. intuition discriminate.
Defined.

(** ** The fan-out of [ParallelCompositeTask.start] *)

Lemma trace_modify (k : UUID) (f : ITask -> ITask) (s : State) :
  trace (modify k f s) = trace s.
Proof. reflexivity. Qed.

Lemma start_sensor (ctx : Context) (fuel : nat) (c : UUID) (s : State)
      (tc : ITask) :
  lookup c s = Some tc -> cls tc = SensorTask -> status tc = NOT_STARTED ->
  run ctx (S fuel) (CStart c) s
  = (Returned, modify c (mark_executing (now ctx)) (emit (EStart c) s)).
Proof.
  intros Hc Hcls Hst. simpl. rewrite Hc, Hcls.
  unfold SensorTask_start. rewrite lookup_emit, Hc, Hst. reflexivity.
Qed.

Lemma start_children_sensors (ctx : Context) (fuel : nat) (l : list UUID)
      (s : State) :
  NoDup l ->
  (forall c tc, In c l -> lookup c s = Some tc ->
                cls tc = SensorTask /\ status tc = NOT_STARTED) ->
  exists s',
    start_children (run ctx (S fuel)) l s = (Returned, s')
    /\ (forall n, lookup n s'
                  = if existsb (Nat.eqb n) l
                    then option_map (mark_executing (now ctx)) (lookup n s)
                    else lookup n s)
    /\ (forall n, completions n (trace s') = completions n (trace s)).
Proof.
  revert s. induction l as [|c l IH]; intros s Hnd Hs; cbn [start_children].
  - exists s. split; [reflexivity|]. split; intro n; reflexivity.
  - inversion Hnd as [|x l' Hnotin Hnd' E]; subst.
    destruct (lookup c s) as [tc|] eqn:Hc.
    + destruct (Hs c tc (or_introl eq_refl) Hc) as [Hcls Hst].
      rewrite (start_sensor ctx fuel c s tc Hc Hcls Hst). unfold andThen.
      set (s1 := modify c (mark_executing (now ctx)) (emit (EStart c) s)).
      assert (Hl1 : forall n, lookup n s1
                              = if Nat.eqb n c
                                then Some (mark_executing (now ctx) tc)
                                else lookup n s).
      { intro n. unfold s1. rewrite lookup_modify by reflexivity.
        rewrite lookup_emit, Hc. reflexivity. }
      destruct (IH s1 Hnd') as [s' [Hrun [Hl Ht]]].
      { intros c' tc' Hin Hc'. rewrite Hl1 in Hc'.
        assert (En : Nat.eqb c' c = false)
          by (apply Nat.eqb_neq; intro; subst c'; contradiction).
        rewrite En in Hc'. apply (Hs c' tc'); [right; exact Hin | exact Hc']. }
      exists s'. split; [exact Hrun|]. split.
      * intro n. rewrite Hl, Hl1. cbn [existsb].
        destruct (Nat.eqb n c) eqn:En.
        -- apply Nat.eqb_eq in En. subst n. rewrite Hc.
           assert (E : existsb (Nat.eqb c) l = false).
           { destruct (existsb (Nat.eqb c) l) eqn:E; [|reflexivity].
             apply existsb_eqb_in in E. contradiction. }
           rewrite E. reflexivity.
        -- reflexivity.
      * intro n. rewrite Ht. unfold s1.
        rewrite trace_modify, completions_emit. cbn [is_completion].
        apply Nat.add_0_r.
    + destruct (IH s Hnd') as [s' [Hrun [Hl Ht]]].
      { intros c' tc' Hin Hc'. apply (Hs c' tc'); [right; exact Hin | exact Hc']. }
      exists s'. split; [exact Hrun|]. split; [|exact Ht].
      intro n. rewrite Hl. cbn [existsb].
      destruct (Nat.eqb n c) eqn:En; [|reflexivity].
      apply Nat.eqb_eq in En. subst n. rewrite Hc.
      destruct (existsb (Nat.eqb c) l); reflexivity.
Qed.

(** [start] on a composite in NOT_STARTED whose children, as far as they
    resolve, are sensors in NOT_STARTED: the call returns, the composite and
    every resolving child are EXECUTING with [time_submitted = now], a child
    id that does not resolve is passed over, no other task is written and
    [on_complete] is entered on no task. *)
Theorem ParallelCompositeTask_start_fans_out (ctx : Context) (fuel : nat)
        (k : UUID) (s : State) (t : ITask) :
  lookup k s = Some t -> cls t = ParallelCompositeTask ->
  status t = NOT_STARTED ->
  NoDup (parallel_child_task_list t) ->
  ~ In k (parallel_child_task_list t) ->
  (forall c tc, In c (parallel_child_task_list t) -> lookup c s = Some tc ->
                cls tc = SensorTask /\ status tc = NOT_STARTED) ->
  exists s',
    start ctx (S (S fuel)) k s = (Returned, s')
    /\ lookup k s' = Some (mark_executing (now ctx) t)
    /\ (forall c tc, In c (parallel_child_task_list t) ->
                     lookup c s = Some tc ->
                     lookup c s' = Some (mark_executing (now ctx) tc))
    /\ (forall n, n <> k -> ~ In n (parallel_child_task_list t) ->
                  lookup n s' = lookup n s)
    /\ (forall n, completions n (trace s') = completions n (trace s)).
Proof.
  intros Hk Hc Hst Hnd Hnotin Hch.
  set (s1 := modify k (mark_executing (now ctx))
               (modify k (mark_executing (now ctx)) (emit (EStart k) s))).
  assert (Hl1 : forall n, lookup n s1
                          = if Nat.eqb n k then Some (mark_executing (now ctx) t)
                            else lookup n s).
  { intro n. unfold s1. rewrite !lookup_modify by reflexivity.
    rewrite Nat.eqb_refl, !lookup_emit, Hk.
    destruct (Nat.eqb n k); reflexivity. }
  destruct (start_children_sensors ctx fuel (parallel_child_task_list t) s1 Hnd)
    as [s' [Hrun [Hl Ht]]].
  { intros c tc Hin Hc'. rewrite Hl1 in Hc'.
    assert (En : Nat.eqb c k = false)
      by (apply Nat.eqb_neq; intro; subst c; contradiction).
    rewrite En in Hc'. exact (Hch c tc Hin Hc'). }
  exists s'. split; [|split; [|split; [|split]]].
  - unfold start. cbn [run step]. rewrite Hk, Hc.
    unfold ParallelCompositeTask_start. rewrite lookup_emit, Hk, Hst.
    simpl status_in. cbv iota. simpl orb. cbv iota. fold s1. exact Hrun.
  - rewrite Hl, Hl1, Nat.eqb_refl.
    assert (E : existsb (Nat.eqb k) (parallel_child_task_list t) = false).
    { destruct (existsb (Nat.eqb k) (parallel_child_task_list t)) eqn:E;
        [|reflexivity]. apply existsb_eqb_in in E. contradiction. }
    rewrite E. reflexivity.
  - intros c tc Hin Hc'. rewrite Hl, Hl1.
    assert (En : Nat.eqb c k = false)
      by (apply Nat.eqb_neq; intro; subst c; contradiction).
    assert (E : existsb (Nat.eqb c) (parallel_child_task_list t) = true)
      by (apply existsb_eqb_in; exact Hin).
    rewrite En, E, Hc'. reflexivity.
  - intros n Hnk Hnin. rewrite Hl, Hl1.
    assert (En : Nat.eqb n k = false) by (apply Nat.eqb_neq; exact Hnk).
    assert (E : existsb (Nat.eqb n) (parallel_child_task_list t) = false).
    { destruct (existsb (Nat.eqb n) (parallel_child_task_list t)) eqn:E;
        [|reflexivity]. apply existsb_eqb_in in E. contradiction. }
    rewrite En, E. reflexivity.
  - intro n. rewrite Ht. unfold s1.
    rewrite !trace_modify, completions_emit. cbn [is_completion].
    apply Nat.add_0_r.
Qed.

Lemma ParallelCompositeTask_start_fans_out_witness :
  exists s',
    start (Examples.quiet None true) 6 1 (Examples.fresh Scenarios.fan)
    = (Returned, s')
    /\ option_map status (lookup 1 s') = Some EXECUTING
    /\ option_map status (lookup 2 s') = Some EXECUTING
    /\ option_map status (lookup 3 s') = Some EXECUTING
    /\ option_map status (lookup 4 s') = Some NOT_STARTED.
Proof.
  destruct (ParallelCompositeTask_start_fans_out (Examples.quiet None true) 4 1
              (Examples.fresh Scenarios.fan) _ eq_refl eq_refl eq_refl)
    as [s' [H1 [H2 [H3 [H4 _]]]]].
  - simpl. repeat constructor; simpl; intuition discriminate.
  - simpl. intuition discriminate.
  - intros c tc [Hc | [Hc | [Hc | []]]] Htc; subst c;
      vm_compute in Htc; try discriminate Htc; inversion Htc; subst tc;
      split; reflexivity.
  - exists s'. split; [exact H1|]. split; [rewrite H2; reflexivity|].
    split; [|split].
    + rewrite (H3 2%nat _ (or_introl eq_refl) eq_refl). reflexivity.
    + rewrite (H3 3%nat _ (or_intror (or_introl eq_refl)) eq_refl). reflexivity.
    + rewrite (H4 4%nat); [reflexivity | discriminate |].
      simpl. intuition discriminate.
Defined.

(** ** A chain of executors under the root *)

Lemma lookup_call_execute (ctx : Context) (k : UUID) (s : State) (t : ITask) :
  lookup k s = Some t ->
  id (fst (execute ctx t (runtime_parameters (instance s)))) = id t ->
  forall n,
    lookup n (call_execute ctx k s)
    = if Nat.eqb n k
      then Some (fst (execute ctx t (runtime_parameters (instance s))))
      else lookup n s.
Proof.
  intros Hk Hid n. unfold call_execute. rewrite Hk.
  destruct (execute ctx t (runtime_parameters (instance s))) as [t' rp'].
  simpl in *. rewrite lookup_set_runtime_parameters.
  rewrite lookup_modify.
  - rewrite lookup_emit, Hk. reflexivity.
  - intros t0 H0. rewrite lookup_emit, Hk in H0. inversion H0; subst t0.
    exact Hid.
Qed.

Lemma root_cleanup_no_monitor (ctx : Context) (rec : Call -> State -> Result)
      (keys : list UUID) (s : State) :
  (forall task, get_monitoring_task ctx task = None) ->
  root_cleanup ctx rec keys s = (Returned, s).
Proof.
  intro H. induction keys as [|k keys IH]; simpl; [reflexivity|].
  destruct (dict_get k (tasks (instance s))) as [task|]; [|exact IH].
  rewrite H. exact IH.
Qed.

Lemma shape_fields (a b : ITask) :
  shape a = shape b ->
  cls a = cls b /\ id a = id b /\ parent_id a = parent_id b
  /\ next_dags a = next_dags b.
Proof. unfold shape. intro H. inversion H. repeat split; assumption. Qed.

(** [start] on an executor in NOT_STARTED gets as far as [on_complete], with
    FAILURE if [execute] set it and with COMPLETED otherwise, and the status
    block leaves the task with that status and the shape it had. *)
Lemma executor_reaches_on_complete (ctx : Context) (f : nat) (k : UUID)
      (s : State) (t : ITask) :
  lookup k s = Some t -> cls t = ExecutorTask -> status t = NOT_STARTED ->
  (forall t0 rp, shape (fst (execute ctx t0 rp)) = shape t0) ->
  exists st s1 t2,
    run ctx (S (S f)) (CStart k) s
    = ITask_on_complete ctx (run ctx f) k st true s1
    /\ (forall n, lookup n (mark_complete ctx k st s1)
                  = if Nat.eqb n k then Some t2 else lookup n s)
    /\ status t2 = st /\ shape t2 = shape t /\ ended ctx t2.
Proof.
  intros Hk Hc Hst Hex.
  set (s0 := modify k (mark_executing (now ctx)) (emit (EStart k) s)).
  assert (Hk0 : lookup k s0 = Some (mark_executing (now ctx) t)).
  { unfold s0. rewrite lookup_modify by reflexivity.
    rewrite Nat.eqb_refl, lookup_emit, Hk. reflexivity. }
  set (t1 := fst (execute ctx (mark_executing (now ctx) t)
                          (runtime_parameters (instance s0)))).
  assert (Hsh1 : shape t1 = shape t) by (unfold t1; rewrite Hex; reflexivity).
  destruct (shape_fields _ _ Hsh1) as [Hc1 [Hid1 _]].
  assert (Hl1 : forall n, lookup n (call_execute ctx k s0)
                          = if Nat.eqb n k then Some t1 else lookup n s).
  { intro n. rewrite (lookup_call_execute ctx k s0 _ Hk0) by exact Hid1.
    fold t1. destruct (Nat.eqb n k) eqn:En; [reflexivity|].
    unfold s0. rewrite lookup_modify by reflexivity. rewrite En.
    apply lookup_emit. }
  set (st := if status_eqb (status t1) FAILURE then FAILURE else COMPLETED).
  set (s1 := emit (EOnComplete k st true) (call_execute ctx k s0)).
  set (t2 := if status_eqb (status t1) st then t1
             else set_time_completed
                    (if 0 <? time_completed t1 then time_completed t1
                     else now ctx) (set_status st t1)).
  exists st, s1, t2. split; [|split; [|split; [|split]]].
  - cbn [run step]. rewrite Hk, Hc. unfold ExecutorTask_start.
    rewrite lookup_emit, Hk, Hst. simpl status_in. cbv iota.
    simpl orb. cbv iota. fold s0.
    pose proof (Hl1 k) as Hk1. rewrite Nat.eqb_refl in Hk1. rewrite Hk1.
    unfold s1, st.
    destruct (status_eqb (status t1) FAILURE) eqn:Ef.
    + apply status_eqb_eq in Ef. rewrite Ef. cbn [step].
      rewrite Hk1, Hc1, Hc. reflexivity.
    + cbn [step]. rewrite Hk1, Hc1, Hc. reflexivity.
  - intro n. rewrite lookup_mark_complete. unfold s1. rewrite !lookup_emit.
    rewrite !Hl1, Nat.eqb_refl. destruct (Nat.eqb n k); reflexivity.
  - unfold t2. destruct (status_eqb (status t1) st) eqn:E; [|reflexivity].
    apply status_eqb_eq. exact E.
  - unfold t2. destruct (status_eqb (status t1) st); [exact Hsh1|].
    rewrite <- Hsh1. reflexivity.
  - assert (Hs2 : status t2 = st).
    { unfold t2. destruct (status_eqb (status t1) st) eqn:E; [|reflexivity].
      apply status_eqb_eq. exact E. }
    unfold ended. rewrite Hs2. unfold st.
    destruct (status_eqb (status t1) FAILURE) eqn:Ef.
    + split; [right; reflexivity|]. intro Hno. exfalso.
      apply status_eqb_eq in Ef. exact (Hno (mark_executing (now ctx) t) _ eq_refl Ef).
    + split; [left; reflexivity | intros _; reflexivity].
Qed.

Section LinearWorkflow.

Variable ctx : Context.
Variable r : UUID.
Hypothesis no_monitor : forall task, get_monitoring_task ctx task = None.
Hypothesis execute_keeps_shape :
  forall t rp, shape (fst (execute ctx t rp)) = shape t.

Lemma root_completes (f : nat) (st : TaskStatusEnum) (z : Z) (s : State) :
  root_waiting r s -> st = COMPLETED \/ st = FAILURE ->
  exists s' rt',
    run ctx (S (S f)) (CNotify r st) (modify r (set_time_completed z) s)
    = (Returned, s')
    /\ lookup r s' = Some rt' /\ status rt' = st
    /\ forall n, n <> r -> lookup n s' = lookup n s.
Proof.
  intros [rt [Hr [Hc [Hty [Hst [Hnx Hp]]]]]] Hterm.
  set (s0 := modify r (set_time_completed z) s).
  assert (Hr0 : lookup r s0 = Some (set_time_completed z rt)).
  { unfold s0. rewrite lookup_modify by reflexivity.
    rewrite Nat.eqb_refl, Hr. reflexivity. }
  assert (Hne : status_eqb EXECUTING st = false)
    by (destruct Hterm; subst st; reflexivity).
  set (s1 := emit (EOnComplete r st true) (emit (ENotify r st) s0)).
  set (s2 := mark_complete ctx r st s1).
  assert (Hl2 : forall n, lookup n s2
                  = if Nat.eqb n r
                    then Some (set_time_completed
                                 (if 0 <? z then z else now ctx)
                                 (set_status st (set_time_completed z rt)))
                    else lookup n s).
  { intro n. unfold s2. rewrite lookup_mark_complete. unfold s1.
    rewrite !lookup_emit, Hr0. simpl option_map. simpl status. rewrite Hst, Hne.
    destruct (Nat.eqb n r) eqn:En; [reflexivity|].
    unfold s0. rewrite lookup_modify by reflexivity. rewrite En. reflexivity. }
  exists s2. eexists. split; [|split; [|split]].
  - cbn [run step]. rewrite Hr0. simpl cls. rewrite Hc.
    unfold ITask_notify. rewrite lookup_emit, Hr0. simpl status.
    rewrite Hst, Hne. cbn [run step]. rewrite lookup_emit, Hr0. simpl cls.
    rewrite Hc. unfold ITask_on_complete. simpl negb. cbv iota.
    fold s1. fold s2. rewrite (Hl2 r), Nat.eqb_refl. simpl next_dags.
    rewrite Hnx. simpl next_to_start. simpl parent_id. rewrite Hp.
    simpl task_type. rewrite Hty. simpl type_eqb. cbv iota.
    apply root_cleanup_no_monitor. exact no_monitor.
  - rewrite (Hl2 r), Nat.eqb_refl. reflexivity.
  - reflexivity.
  - intros n Hn. rewrite Hl2.
    assert (En : Nat.eqb n r = false) by (apply Nat.eqb_neq; exact Hn).
    rewrite En. reflexivity.
Qed.

Lemma ready_chain_frame (s s' : State) (ks : list UUID) :
  (forall n, In n ks -> lookup n s' = lookup n s) ->
  ready_chain r s ks -> ready_chain r s' ks.
Proof.
  induction ks as [|k ks IH]; intros Hl Hr; simpl in *; [exact Logic.I|].
  destruct Hr as [Hne [Ht Hrest]]. split; [exact Hne|]. split.
  - rewrite (Hl k (or_introl eq_refl)). exact Ht.
  - apply IH; [|exact Hrest]. intros n Hn. apply Hl. right. exact Hn.
Qed.

(** The cascade from the head of a chain: every task of the chain is run
    and ended, then the root is completed with the status of the last. *)
Lemma chain_runs (ks : list UUID) :
  forall (k : UUID) (s : State) (fuel : nat),
    NoDup (k :: ks) -> ready_chain r s (k :: ks) -> root_waiting r s ->
    (2 * List.length (k :: ks) + 2 <= fuel)%nat ->
    exists s',
      run ctx fuel (CStart k) s = (Returned, s')
      /\ (forall x, x = r \/ In x (k :: ks) ->
                    exists tx, lookup x s' = Some tx /\ ended ctx tx)
      /\ (forall n, n <> r -> ~ In n (k :: ks) -> lookup n s' = lookup n s).
Proof.
  induction ks as [|k2 ks IH]; intros k s fuel Hnd Hready Hroot Hfuel.
  - destruct Hready as [Hkr [[t [Hk [Hc [Hst [Hp Hnx]]]]] _]].
    destruct fuel as [|[|[|[|f]]]]; simpl in Hfuel; try lia.
    destruct (executor_reaches_on_complete ctx (S (S f)) k s t Hk Hc Hst
                execute_keeps_shape)
      as [st [s1 [t2 [Hrun [Hl [Hs2 [Hsh2 Hend]]]]]]].
    destruct (shape_fields _ _ Hsh2) as [_ [_ [Hp2 Hnx2]]].
    assert (Hroot2 : root_waiting r (mark_complete ctx k st s1)).
    { destruct Hroot as [rt Hrt]. exists rt. rewrite Hl.
      assert (En : Nat.eqb r k = false) by (apply Nat.eqb_neq; congruence).
      rewrite En. exact Hrt. }
    assert (Hterm : st = COMPLETED \/ st = FAILURE)
      by (rewrite <- Hs2; apply Hend).
    destruct (root_completes f st (time_completed t2) _ Hroot2 Hterm)
      as [s' [rt' [Hrun' [Hr' [Hst' Hframe]]]]].
    exists s'. split; [|split].
    + rewrite Hrun. unfold ITask_on_complete. simpl negb. cbv iota.
      rewrite (Hl k), Nat.eqb_refl. rewrite Hnx2, Hnx. simpl firstn.
      simpl next_to_start. rewrite Hp2, Hp.
      destruct Hroot2 as [rt [Hrt _]]. rewrite Hrt. exact Hrun'.
    + intros x [Hx | [Hx | []]]; subst x.
      * exists rt'. split; [exact Hr'|]. unfold ended. rewrite Hst', <- Hs2.
        exact Hend.
      * exists t2. split; [|exact Hend].
        rewrite (Hframe k Hkr), Hl, Nat.eqb_refl. reflexivity.
    + intros n Hn Hnin. rewrite (Hframe n Hn), Hl.
      assert (En : Nat.eqb n k = false)
        by (apply Nat.eqb_neq; intro; subst n; apply Hnin; left; reflexivity).
      rewrite En. reflexivity.
  - destruct Hready as [Hkr [[t [Hk [Hc [Hst [Hp Hnx]]]]] Hrest]].
    inversion Hnd as [|x l Hnotin Hnd' E]; subst.
    destruct fuel as [|[|f]]; simpl in Hfuel; try lia.
    destruct (executor_reaches_on_complete ctx f k s t Hk Hc Hst
                execute_keeps_shape)
      as [st [s1 [t2 [Hrun [Hl [Hs2 [Hsh2 Hend]]]]]]].
    destruct (shape_fields _ _ Hsh2) as [_ [_ [Hp2 Hnx2]]].
    set (s2 := mark_complete ctx k st s1) in *.
    assert (Hother : forall n, n <> k -> lookup n s2 = lookup n s).
    { intros n Hn. rewrite Hl.
      assert (En : Nat.eqb n k = false) by (apply Nat.eqb_neq; exact Hn).
      rewrite En. reflexivity. }
    assert (Hready2 : ready_chain r s2 (k2 :: ks)).
    { apply (ready_chain_frame s); [|exact Hrest].
      intros n Hn. apply Hother. intro; subst n. contradiction. }
    assert (Hroot2 : root_waiting r s2).
    { destruct Hroot as [rt Hrt]. exists rt.
      rewrite (Hother r) by congruence. exact Hrt. }
    destruct (IH k2 s2 f Hnd' Hready2 Hroot2) as [s' [Hrun' [Hall Hframe]]].
    { simpl. simpl in Hfuel. lia. }
    destruct Hready2 as [_ [[tk2 [Hk2 [_ [Hst2 _]]]] _]].
    exists s'. split; [|split].
    + rewrite Hrun. unfold ITask_on_complete. simpl negb. cbv iota.
      fold s2. rewrite (Hl k), Nat.eqb_refl. rewrite Hnx2, Hnx. simpl firstn.
      cbn [next_to_start]. unfold lookup in Hk2. rewrite Hk2, Hst2.
      simpl status_eqb. cbv iota. exact Hrun'.
    + intros x [Hx | [Hx | Hx]].
      * apply Hall. left. exact Hx.
      * subst x. exists t2. split; [|exact Hend].
        rewrite (Hframe k Hkr Hnotin), Hl, Nat.eqb_refl. reflexivity.
      * apply Hall. right. exact Hx.
    + intros n Hn Hnin. rewrite (Hframe n Hn).
      * apply Hother. intro; subst n. apply Hnin. left. reflexivity.
      * intro Hin. apply Hnin. right. exact Hin.
Qed.

End LinearWorkflow.



(** ** [IntervalTask.start] *)

Lemma not_after_now_due (v : option Z) (t0 : Z) :
  set_and_after_now v t0 = false -> unset_or_due v t0 = true.
Proof.
  unfold set_and_after_now, unset_or_due, unset. destruct v as [z|];
    [|reflexivity].
  destruct (Z.eqb z 0); [reflexivity|]. simpl.
  destruct (Z.ltb_spec t0 z); [discriminate|]. intros _.
  apply Z.leb_le. assumption.
Qed.

(** [IntervalTask.start] at or after the trigger time, when
    [interval_execute] answers that the task is not finished and a positive
    [interval_execute_period] is set: the task is re-armed at
    [now + period], and it is not completed by this call even when
    [time_to_force_complete] has passed.  In that case [super().start] is
    entered but stops at the trigger time just set, and [start] still
    returns [True].  No [execute] and no [on_complete] run, and no other
    task is written. *)
Theorem IntervalTask_rearm_blocks_force_complete (ctx : Context)
        (rec : Call -> State -> Result)
        (interval_execute :
           ITask -> RuntimeParameters -> ITask * RuntimeParameters * bool)
        (fields : IntervalFields) (k : UUID) (s : State) (t t' : ITask)
        (rp' : RuntimeParameters) (p : Z) :
  lookup k s = Some t -> cls t = TriggerTask ->
  set_and_after_now (time_to_execute t) (now ctx) = false ->
  interval_execute
    (if status_eqb (status t) NOT_STARTED
     then mark_executing (now ctx) t else t)
    (runtime_parameters (instance s)) = (t', rp', false) ->
  id t' = id t -> cls t' = TriggerTask -> status t' <> NOT_STARTED ->
  interval_execute_period fields = Some p -> 0 < p -> 0 <= now ctx ->
  exists s',
    IntervalTask_start ctx rec interval_execute fields k s
    = ((Returned, s'),
       set_and_due (time_to_force_complete fields) (now ctx))
    /\ lookup k s' = Some (set_time_to_execute (Some (now ctx + p)) t')
    /\ trace s' = trace s
    /\ forall n, n <> k -> lookup n s' = lookup n s.
Proof.
  intros Hk Hc Hgate Hie Hid Hc' Hst' Hp Hpos Hnow.
  set (t1 := if status_eqb (status t) NOT_STARTED
             then mark_executing (now ctx) t else t) in Hie.
  set (s1 := if status_eqb (status t) NOT_STARTED
             then modify k (mark_executing (now ctx)) s else s).
  assert (Hl1 : lookup k s1 = Some t1).
  { unfold s1, t1. destruct (status_eqb (status t) NOT_STARTED); [|exact Hk].
    rewrite lookup_modify by reflexivity. rewrite Nat.eqb_refl, Hk.
    reflexivity. }
  assert (Ho1 : forall n, n <> k -> lookup n s1 = lookup n s).
  { intros n Hn. unfold s1.
    destruct (status_eqb (status t) NOT_STARTED); [|reflexivity].
    rewrite lookup_modify by reflexivity.
    assert (En : Nat.eqb n k = false) by (apply Nat.eqb_neq; exact Hn).
    rewrite En. reflexivity. }
  assert (Hr1 : runtime_parameters (instance s1)
                = runtime_parameters (instance s)).
  { unfold s1. destruct (status_eqb (status t) NOT_STARTED); [|reflexivity].
    unfold modify, update_task. cbn [instance].
    destruct (Nat.eqb k (id (self (instance s)))); reflexivity. }
  assert (Ht1 : trace s1 = trace s).
  { unfold s1. destruct (status_eqb (status t) NOT_STARTED); reflexivity. }
  assert (Hid1 : id t1 = id t).
  { unfold t1. destruct (status_eqb (status t) NOT_STARTED); reflexivity. }
  set (s2 := set_runtime_parameters rp' (modify k (fun _ => t') s1)).
  set (s3 := modify k (set_time_to_execute (Some (now ctx + p))) s2).
  assert (Hl2 : forall n, lookup n s2
                          = if Nat.eqb n k then Some t' else lookup n s1).
  { intro n. unfold s2. rewrite lookup_set_runtime_parameters.
    rewrite lookup_modify.
    - rewrite Hl1. reflexivity.
    - intros t0 H0. rewrite Hl1 in H0. inversion H0; subst t0.
      rewrite Hid, Hid1. reflexivity. }
  assert (Hl3 : forall n, lookup n s3
                          = if Nat.eqb n k
                            then Some (set_time_to_execute
                                         (Some (now ctx + p)) t')
                            else lookup n s1).
  { intro n. unfold s3. rewrite lookup_modify by reflexivity.
    rewrite !Hl2, Nat.eqb_refl. destruct (Nat.eqb n k); reflexivity. }
  exists s3. split; [|split; [|split]].
  - unfold IntervalTask_start. rewrite Hk. fold s1. rewrite Hgate.
    rewrite (not_after_now_due _ _ Hgate).
    unfold call_interval_execute. rewrite Hl1, Hr1, Hie. fold s2.
    rewrite Hp. simpl negb. simpl option_map.
    assert (Ep : Z.eqb p 0 = false) by (apply Z.eqb_neq; lia).
    unfold unset. rewrite Ep. simpl andb. cbv iota. fold s3.
    destruct (set_and_due (time_to_force_complete fields) (now ctx));
      [|reflexivity].
    simpl orb. cbv iota. unfold TriggerTask_start.
    pose proof (Hl3 k) as Hk3. rewrite Nat.eqb_refl in Hk3. rewrite Hk3.
    simpl status. apply status_eqb_neq in Hst'. rewrite Hst'.
    simpl time_to_execute. unfold unset.
    assert (E0 : Z.eqb (now ctx + p) 0 = false) by (apply Z.eqb_neq; lia).
    assert (E1 : (now ctx + p <=? now ctx) = false) by (apply Z.leb_gt; lia).
    rewrite E0, E1. reflexivity.
  - rewrite Hl3, Nat.eqb_refl. reflexivity.
  - unfold s3, s2. cbn [trace modify set_runtime_parameters]. exact Ht1.
  - intros n Hn. rewrite Hl3.
    assert (En : Nat.eqb n k = false) by (apply Nat.eqb_neq; exact Hn).
    rewrite En. apply Ho1. exact Hn.
Qed.

Lemma IntervalTask_rearm_blocks_force_complete_witness :
  let s := Examples.fresh (Examples.timed EXECUTING (Some 50)) in
  exists s',
    IntervalTask_start (Examples.quiet None true)
                       (run (Examples.quiet None true) 5)
                       (fun t rp => (t, rp, false))
                       (mkIntervalFields (Some 90) (Some 5)) 1%nat s
    = ((Returned, s'), true)
    /\ option_map status (lookup 1%nat s') = Some EXECUTING
    /\ option_map time_to_execute (lookup 1%nat s') = Some (Some 105)
    /\ trace s' = [].
Proof.
  intro s.
  destruct (IntervalTask_rearm_blocks_force_complete
              (Examples.quiet None true) (run (Examples.quiet None true) 5)
              (fun t rp => (t, rp, false))
              (mkIntervalFields (Some 90) (Some 5)) 1%nat s
              (Examples.trigger 1 (Some 0%nat) EXECUTING (Some 50))
              (Examples.trigger 1 (Some 0%nat) EXECUTING (Some 50)) [] 5)
    as [s' [H1 [H2 [H3 _]]]];
    try reflexivity; try discriminate.
  exists s'. split; [exact H1|]. rewrite H2. repeat split. exact H3.
Defined.

(** ** What the monitor does not act on *)

(** [DefaultMonitoringTask.execute] of a [SkipOnMaxDurationTask] acts on an
    EXECUTING task only.  With no [monitored_task_id], with one that does
    not resolve, and on a monitored task in any status other than EXECUTING
    it returns and writes nothing.  On an EXECUTING task whose class has no
    [process_name] it raises [AttributeError] before anything is skipped. *)
Theorem monitor_acts_on_executing_only (ctx : Context) (fuel : nat)
        (defines_process_name : ITask -> bool)
        (monitored_task_id : option UUID) (s : State) :
  ((forall m mt, monitored_task_id = Some m -> lookup m s = Some mt ->
                 status mt <> EXECUTING) ->
   DefaultMonitoringTask_execute ctx fuel defines_process_name
                                 monitored_task_id s
   = (Returned, s))
  /\ (forall m mt, monitored_task_id = Some m -> lookup m s = Some mt ->
                   status mt = EXECUTING -> defines_process_name mt = false ->
                   DefaultMonitoringTask_execute ctx fuel defines_process_name
                                                 monitored_task_id s
                   = (Raised AttributeError, s)).
Proof.
  unfold DefaultMonitoringTask_execute,
    SkipOnMaxDurationTask_process_monitored_task.
  split.
  - intro H. destruct monitored_task_id as [m|]; [|reflexivity].
    destruct (lookup m s) as [mt|] eqn:Hm; [|reflexivity].
    specialize (H m mt eq_refl Hm). apply status_eqb_neq in H.
    rewrite H. destruct (negb _); reflexivity.
  - intros m mt Hid Hm Hst Hno. rewrite Hid, Hm, Hst, Hno. reflexivity.
Qed.

Lemma monitor_acts_on_executing_only_witness :
  DefaultMonitoringTask_execute (Examples.quiet None true) 5 (fun _ => false)
    (Some 2%nat) (Examples.fresh (Examples.two_sensors EXECUTING STOPPED false))
  = (Returned, Examples.fresh (Examples.two_sensors EXECUTING STOPPED false))
  /\ DefaultMonitoringTask_execute (Examples.quiet None true) 5 (fun _ => false)
       (Some 1%nat)
       (Examples.fresh (Examples.two_sensors EXECUTING STOPPED false))
     = (Raised AttributeError,
        Examples.fresh (Examples.two_sensors EXECUTING STOPPED false)).
Proof.
  split.
  - apply (proj1 (monitor_acts_on_executing_only (Examples.quiet None true) 5
                    (fun _ => false) (Some 2%nat) _)).
    intros m mt Hm Hl. inversion Hm; subst m. vm_compute in Hl.
    inversion Hl; subst mt. discriminate.
  - apply (proj2 (monitor_acts_on_executing_only (Examples.quiet None true) 5
                    (fun _ => false) (Some 1%nat)
                    (Examples.fresh
                       (Examples.two_sensors EXECUTING STOPPED false)))
                 1%nat (Examples.sensor 1 (Some 0%nat) EXECUTING [] false
                                        "orders")
                 eq_refl eq_refl); reflexivity.
Defined.
